(** * http11opt: character tables, error strings and string utilities

    A shallow embedding of [util.c] (with the declarations it needs from
    [h11.h] and [h11_internal.h]) and the properties of the classifier
    tables, the hex-nibble decoder, the error catalog, the default
    configuration, and the case-insensitive span comparison and header
    lookup.

    Conventions of the embedding:
    - a [char] / [u8] object is a [byte]; the cast [(u8)c] is [u8_of_char],
      the value of the byte as an integer in 0..255;
    - C integers are [Z]; unsigned 32-bit arithmetic is wrapped explicitly
      with [wrap32], the cast to [int] is [int_of_unsigned];
    - a pointer is an [option]: [None] is [NULL], [Some b] points at the
      first element of the object [b];
    - a function that reads memory returns an [option]: [None] means the C
      program would read outside the object it was given. *)

From Stdlib Require Import ZArith List Bool Lia.
From Stdlib Require Import Strings.String Strings.Byte.
Import ListNotations.

Local Open Scope Z_scope.

(** ** Machine integers *)

Definition u8_of_char (c : byte) : Z := Z.of_N (Byte.to_N c).

Definition wrap8 (z : Z) : Z := z mod 2 ^ 8.
Definition wrap32 (z : Z) : Z := z mod 2 ^ 32.

Definition INT_MAX : Z := 2 ^ 31 - 1.
Definition UINT64_MAX : Z := 2 ^ 64 - 1.

(** [(int)u] for an [unsigned] value [u]. *)
Definition int_of_unsigned (u : Z) : Z :=
  if u <=? INT_MAX then u else u - 2 ^ 32.

(** [(unsigned)e] for a 32-bit enum or [int] value [e]. *)
Definition unsigned_of_int (e : Z) : Z := wrap32 e.

(** A C string literal: its characters. *)
Definition chars (s : string) : list byte := list_byte_of_string s.

(** ** Character tables (util.c, lines 8-62) *)

Definition Z16 : list Z := [0; 0; 0; 0; 0; 0; 0; 0; 0; 0; 0; 0; 0; 0; 0; 0].
Definition O16 : list Z := [1; 1; 1; 1; 1; 1; 1; 1; 1; 1; 1; 1; 1; 1; 1; 1].
Definition R16 (a b c d e f g h i j k l m n o p : Z) : list Z :=
  [a; b; c; d; e; f; g; h; i; j; k; l; m; n; o; p].

Definition h11_tchar_table : list Z :=
  Z16 ++ Z16 ++
  R16 0 1 0 1 1 1 1 1 0 0 1 1 0 1 1 0 ++
  R16 1 1 1 1 1 1 1 1 1 1 0 0 0 0 0 0 ++
  R16 0 1 1 1 1 1 1 1 1 1 1 1 1 1 1 1 ++
  R16 1 1 1 1 1 1 1 1 1 1 1 0 0 0 1 1 ++
  R16 1 1 1 1 1 1 1 1 1 1 1 1 1 1 1 1 ++
  R16 1 1 1 1 1 1 1 1 1 1 1 0 1 0 1 0 ++
  Z16 ++ Z16 ++ Z16 ++ Z16 ++ Z16 ++ Z16 ++ Z16 ++ Z16.

Definition h11_vchar_table : list Z :=
  R16 0 0 0 0 0 0 0 0 0 1 0 0 0 0 0 0 ++
  Z16 ++
  O16 ++ O16 ++ O16 ++ O16 ++ O16 ++
  R16 1 1 1 1 1 1 1 1 1 1 1 1 1 1 1 0 ++
  O16 ++ O16 ++ O16 ++ O16 ++ O16 ++ O16 ++ O16 ++ O16.

Definition h11_digit_table : list Z :=
  Z16 ++ Z16 ++ Z16 ++
  R16 1 1 1 1 1 1 1 1 1 1 0 0 0 0 0 0 ++
  Z16 ++ Z16 ++ Z16 ++ Z16 ++ Z16 ++ Z16 ++ Z16 ++ Z16 ++ Z16 ++ Z16 ++
  Z16 ++ Z16.

Definition h11_hexdig_table : list Z :=
  Z16 ++ Z16 ++ Z16 ++
  R16 1 1 1 1 1 1 1 1 1 1 0 0 0 0 0 0 ++
  R16 0 1 1 1 1 1 1 0 0 0 0 0 0 0 0 0 ++
  Z16 ++
  R16 0 1 1 1 1 1 1 0 0 0 0 0 0 0 0 0 ++
  Z16 ++ Z16 ++ Z16 ++ Z16 ++ Z16 ++ Z16 ++ Z16 ++ Z16 ++ Z16.

Definition h11_uri_table : list Z :=
  Z16 ++ Z16 ++
  R16 0 1 0 0 1 1 1 1 1 1 1 1 1 1 1 1 ++
  R16 1 1 1 1 1 1 1 1 1 1 1 1 0 1 0 0 ++
  O16 ++
  R16 1 1 1 1 1 1 1 1 1 1 1 0 0 0 0 1 ++
  R16 0 1 1 1 1 1 1 1 1 1 1 1 1 1 1 1 ++
  R16 1 1 1 1 1 1 1 1 1 1 1 0 0 0 1 0 ++
  Z16 ++ Z16 ++ Z16 ++ Z16 ++ Z16 ++ Z16 ++ Z16 ++ Z16.

(** [table[(u8)c]] converted to [bool]: nonzero is true.  The index is a
    byte value, always inside a 256-entry table. *)
Definition table_lookup (table : list Z) (c : byte) : bool :=
  negb (nth (Z.to_nat (u8_of_char c)) table 0 =? 0).

(** ** Classifiers (h11_internal.h, lines 35-44) *)

Definition h11_is_tchar (c : byte) : bool := table_lookup h11_tchar_table c.
Definition h11_is_vchar (c : byte) : bool := table_lookup h11_vchar_table c.
Definition h11_is_digit (c : byte) : bool := table_lookup h11_digit_table c.
Definition h11_is_hexdig (c : byte) : bool := table_lookup h11_hexdig_table c.
Definition h11_is_uri (c : byte) : bool := table_lookup h11_uri_table c.
Definition h11_is_sp (c : byte) : bool := u8_of_char c =? 0x20.
Definition h11_is_htab (c : byte) : bool := u8_of_char c =? 0x09.
Definition h11_is_ows (c : byte) : bool := h11_is_sp c || h11_is_htab c.
Definition h11_is_cr (c : byte) : bool := u8_of_char c =? 0x0D.
Definition h11_is_lf (c : byte) : bool := u8_of_char c =? 0x0A.

(** ** Hex-nibble decoder (util.c, lines 64-72)

    [u] is an [unsigned]; the subtractions wrap modulo 2^32, which is what
    makes the single comparison [u - '0' <= 9u] a range check. *)
Definition h11_hexval (c : byte) : Z :=
  let u := u8_of_char c in
  if wrap32 (u - 48) <=? 9 then int_of_unsigned (wrap32 (u - 48))
  else
    let u := Z.lor u 0x20 in
    if wrap32 (u - 97) <=? 5
    then int_of_unsigned (wrap32 (wrap32 (u - 97) + 10))
    else -1.

(** Character sets named in the grammar, as the bytes of a literal. *)
Definition is_char_of (s : string) (c : byte) : Prop := In c (chars s).
Definition is_char_ofb (s : string) (c : byte) : bool :=
  existsb (Byte.eqb c) (chars s).

Definition in_range (lo hi : Z) (c : byte) : Prop :=
  lo <= u8_of_char c <= hi.
Definition in_rangeb (lo hi : Z) (c : byte) : bool :=
  (lo <=? u8_of_char c) && (u8_of_char c <=? hi).

Definition ascii_digit (c : byte) : Prop := in_range 48 57 c.
Definition ascii_upper (c : byte) : Prop := in_range 65 90 c.
Definition ascii_lower (c : byte) : Prop := in_range 97 122 c.

(** ** Error catalog (h11.h, lines 16-51; util.c, lines 74-139)

    Enumerators are integer constants: the first is 0 and each following one
    is its predecessor plus one. *)

Definition H11_OK : Z := 0.
Definition H11_NEED_MORE_DATA : Z := H11_OK + 1.
Definition H11_ERR_INVALID_METHOD : Z := H11_NEED_MORE_DATA + 1.
Definition H11_ERR_INVALID_TARGET : Z := H11_ERR_INVALID_METHOD + 1.
Definition H11_ERR_INVALID_VERSION : Z := H11_ERR_INVALID_TARGET + 1.
Definition H11_ERR_REQUEST_LINE_TOO_LONG : Z := H11_ERR_INVALID_VERSION + 1.
Definition H11_ERR_INVALID_CRLF : Z := H11_ERR_REQUEST_LINE_TOO_LONG + 1.
Definition H11_ERR_INVALID_HEADER_NAME : Z := H11_ERR_INVALID_CRLF + 1.
Definition H11_ERR_INVALID_HEADER_VALUE : Z := H11_ERR_INVALID_HEADER_NAME + 1.
Definition H11_ERR_HEADER_LINE_TOO_LONG : Z := H11_ERR_INVALID_HEADER_VALUE + 1.
Definition H11_ERR_TOO_MANY_HEADERS : Z := H11_ERR_HEADER_LINE_TOO_LONG + 1.
Definition H11_ERR_HEADERS_TOO_LARGE : Z := H11_ERR_TOO_MANY_HEADERS + 1.
Definition H11_ERR_OBS_FOLD_REJECTED : Z := H11_ERR_HEADERS_TOO_LARGE + 1.
Definition H11_ERR_LEADING_WHITESPACE : Z := H11_ERR_OBS_FOLD_REJECTED + 1.
Definition H11_ERR_MISSING_HOST : Z := H11_ERR_LEADING_WHITESPACE + 1.
Definition H11_ERR_MULTIPLE_HOST : Z := H11_ERR_MISSING_HOST + 1.
Definition H11_ERR_INVALID_HOST : Z := H11_ERR_MULTIPLE_HOST + 1.
Definition H11_ERR_INVALID_CONTENT_LENGTH : Z := H11_ERR_INVALID_HOST + 1.
Definition H11_ERR_MULTIPLE_CONTENT_LENGTH : Z :=
  H11_ERR_INVALID_CONTENT_LENGTH + 1.
Definition H11_ERR_CONTENT_LENGTH_OVERFLOW : Z :=
  H11_ERR_MULTIPLE_CONTENT_LENGTH + 1.
Definition H11_ERR_INVALID_TRANSFER_ENCODING : Z :=
  H11_ERR_CONTENT_LENGTH_OVERFLOW + 1.
Definition H11_ERR_TE_NOT_CHUNKED_FINAL : Z :=
  H11_ERR_INVALID_TRANSFER_ENCODING + 1.
Definition H11_ERR_TE_CL_CONFLICT : Z := H11_ERR_TE_NOT_CHUNKED_FINAL + 1.
Definition H11_ERR_UNKNOWN_TRANSFER_CODING : Z := H11_ERR_TE_CL_CONFLICT + 1.
Definition H11_ERR_BODY_TOO_LARGE : Z := H11_ERR_UNKNOWN_TRANSFER_CODING + 1.
Definition H11_ERR_INVALID_CHUNK_SIZE : Z := H11_ERR_BODY_TOO_LARGE + 1.
Definition H11_ERR_CHUNK_SIZE_OVERFLOW : Z := H11_ERR_INVALID_CHUNK_SIZE + 1.
Definition H11_ERR_INVALID_CHUNK_EXT : Z := H11_ERR_CHUNK_SIZE_OVERFLOW + 1.
Definition H11_ERR_CHUNK_EXT_TOO_LONG : Z := H11_ERR_INVALID_CHUNK_EXT + 1.
Definition H11_ERR_INVALID_CHUNK_DATA : Z := H11_ERR_CHUNK_EXT_TOO_LONG + 1.
Definition H11_ERR_INVALID_TRAILER : Z := H11_ERR_INVALID_CHUNK_DATA + 1.
Definition H11_ERR_CONNECTION_CLOSED : Z := H11_ERR_INVALID_TRAILER + 1.
Definition H11_ERR_INTERNAL : Z := H11_ERR_CONNECTION_CLOSED + 1.
Definition H11_ERR__COUNT : Z := H11_ERR_INTERNAL + 1.

(** The X-macro list: enumerator, symbolic name, message. *)
Definition H11_ERROR_LIST : list (Z * string * string) :=
  ([ (H11_OK, "H11_OK", "Success");
    (H11_NEED_MORE_DATA, "H11_NEED_MORE_DATA", "Need more data");
    (H11_ERR_INVALID_METHOD, "H11_ERR_INVALID_METHOD", "Invalid HTTP method");
    (H11_ERR_INVALID_TARGET, "H11_ERR_INVALID_TARGET",
     "Invalid request target");
    (H11_ERR_INVALID_VERSION, "H11_ERR_INVALID_VERSION",
     "Invalid HTTP version");
    (H11_ERR_REQUEST_LINE_TOO_LONG, "H11_ERR_REQUEST_LINE_TOO_LONG",
     "Request line too long");
    (H11_ERR_INVALID_CRLF, "H11_ERR_INVALID_CRLF", "Invalid line ending");
    (H11_ERR_INVALID_HEADER_NAME, "H11_ERR_INVALID_HEADER_NAME",
     "Invalid header name");
    (H11_ERR_INVALID_HEADER_VALUE, "H11_ERR_INVALID_HEADER_VALUE",
     "Invalid header value");
    (H11_ERR_HEADER_LINE_TOO_LONG, "H11_ERR_HEADER_LINE_TOO_LONG",
     "Header line too long");
    (H11_ERR_TOO_MANY_HEADERS, "H11_ERR_TOO_MANY_HEADERS", "Too many headers");
    (H11_ERR_HEADERS_TOO_LARGE, "H11_ERR_HEADERS_TOO_LARGE",
     "Headers section too large");
    (H11_ERR_OBS_FOLD_REJECTED, "H11_ERR_OBS_FOLD_REJECTED",
     "Obsolete line folding rejected");
    (H11_ERR_LEADING_WHITESPACE, "H11_ERR_LEADING_WHITESPACE",
     "Leading whitespace in header section");
    (H11_ERR_MISSING_HOST, "H11_ERR_MISSING_HOST", "Missing Host header");
    (H11_ERR_MULTIPLE_HOST, "H11_ERR_MULTIPLE_HOST", "Multiple Host headers");
    (H11_ERR_INVALID_HOST, "H11_ERR_INVALID_HOST",
     "Invalid Host header value");
    (H11_ERR_INVALID_CONTENT_LENGTH, "H11_ERR_INVALID_CONTENT_LENGTH",
     "Invalid Content-Length value");
    (H11_ERR_MULTIPLE_CONTENT_LENGTH, "H11_ERR_MULTIPLE_CONTENT_LENGTH",
     "Conflicting Content-Length values");
    (H11_ERR_CONTENT_LENGTH_OVERFLOW, "H11_ERR_CONTENT_LENGTH_OVERFLOW",
     "Content-Length value overflow");
    (H11_ERR_INVALID_TRANSFER_ENCODING, "H11_ERR_INVALID_TRANSFER_ENCODING",
     "Invalid Transfer-Encoding");
    (H11_ERR_TE_NOT_CHUNKED_FINAL, "H11_ERR_TE_NOT_CHUNKED_FINAL",
     "Transfer-Encoding final coding is not chunked");
    (H11_ERR_TE_CL_CONFLICT, "H11_ERR_TE_CL_CONFLICT",
     "Transfer-Encoding and Content-Length both present");
    (H11_ERR_UNKNOWN_TRANSFER_CODING, "H11_ERR_UNKNOWN_TRANSFER_CODING",
     "Unknown transfer coding");
    (H11_ERR_BODY_TOO_LARGE, "H11_ERR_BODY_TOO_LARGE",
     "Body exceeds maximum size");
    (H11_ERR_INVALID_CHUNK_SIZE, "H11_ERR_INVALID_CHUNK_SIZE",
     "Invalid chunk size");
    (H11_ERR_CHUNK_SIZE_OVERFLOW, "H11_ERR_CHUNK_SIZE_OVERFLOW",
     "Chunk size overflow");
    (H11_ERR_INVALID_CHUNK_EXT, "H11_ERR_INVALID_CHUNK_EXT",
     "Invalid chunk extension");
    (H11_ERR_CHUNK_EXT_TOO_LONG, "H11_ERR_CHUNK_EXT_TOO_LONG",
     "Chunk extension too long");
    (H11_ERR_INVALID_CHUNK_DATA, "H11_ERR_INVALID_CHUNK_DATA",
     "Invalid chunk data");
    (H11_ERR_INVALID_TRAILER, "H11_ERR_INVALID_TRAILER",
     "Invalid trailer field");
    (H11_ERR_CONNECTION_CLOSED, "H11_ERR_CONNECTION_CLOSED",
     "Connection closed");
    (H11_ERR_INTERNAL, "H11_ERR_INTERNAL", "Internal error") ])%string.

(** Store [v] in slot [i] of an array; an index outside the array, which a
    C compiler rejects in an initializer, stores nothing. *)
Fixpoint array_set {A : Type} (arr : list A) (i : nat) (v : A) : list A :=
  match arr, i with
  | [], _ => []
  | _ :: rest, O => v :: rest
  | x :: rest, S j => x :: array_set rest j v
  end.

(** An array of [n] string pointers with designated initializers
    [[e] = s]: slots that no initializer names stay null. *)
Definition designated_init (n : Z) (inits : list (Z * string))
  : list (option string) :=
  fold_left (fun arr ei => array_set arr (Z.to_nat (fst ei)) (Some (snd ei)))
            inits (repeat None (Z.to_nat n)).

Definition H11_ERR_NAME (x : Z * string * string) : Z * string :=
  let '(e, n, _) := x in (e, n).
Definition H11_ERR_MSG (x : Z * string * string) : Z * string :=
  let '(e, _, m) := x in (e, m).

Definition error_names : list (option string) :=
  designated_init H11_ERR__COUNT (map H11_ERR_NAME H11_ERROR_LIST).
Definition error_messages : list (option string) :=
  designated_init H11_ERR__COUNT (map H11_ERR_MSG H11_ERROR_LIST).

(** The argument is the 32-bit value of the enum object, whichever
    integer type the compiler picks for it; the result is a string
    pointer. *)
Definition h11_error_name (error : Z) : option string :=
  if unsigned_of_int error >=? H11_ERR__COUNT then Some "UNKNOWN"%string
  else nth (Z.to_nat error) error_names None.

Definition h11_error_message (error : Z) : option string :=
  if unsigned_of_int error >=? H11_ERR__COUNT then Some "UNKNOWN"%string
  else nth (Z.to_nat error) error_messages None.

(** ** Configuration (h11.h, lines 89-96 and 126-135; util.c, 141-154) *)

Definition H11_CFG_STRICT_CRLF : Z := Z.shiftl 1 0.
Definition H11_CFG_REJECT_OBS_FOLD : Z := Z.shiftl 1 1.
Definition H11_CFG_ALLOW_OBS_TEXT : Z := Z.shiftl 1 2.
Definition H11_CFG_ALLOW_LEADING_CRLF : Z := Z.shiftl 1 3.
Definition H11_CFG_TOLERATE_SPACES : Z := Z.shiftl 1 4.
Definition H11_CFG_REJECT_TE_CL_CONFLICT : Z := Z.shiftl 1 5.

Record h11_config_t : Type := mk_config {
  max_body_size : Z;
  max_request_line_len : Z;
  max_header_line_len : Z;
  max_headers_size : Z;
  max_header_count : Z;
  max_chunk_ext_len : Z;
  cfg_flags : Z;
  cfg_reserved0 : Z
}.

Definition h11_config_default : h11_config_t :=
  {| max_body_size := UINT64_MAX;
     max_request_line_len := 8192;
     max_header_line_len := 8192;
     max_headers_size := 65536;
     max_header_count := 100;
     max_chunk_ext_len := 1024;
     cfg_flags :=
       Z.lor (Z.lor (Z.lor (Z.lor H11_CFG_STRICT_CRLF H11_CFG_REJECT_OBS_FOLD)
                           H11_CFG_ALLOW_OBS_TEXT)
                    H11_CFG_ALLOW_LEADING_CRLF)
             H11_CFG_REJECT_TE_CL_CONFLICT;
     cfg_reserved0 := 0 |}.

(** A configuration flag is set when [(flags & bit) != 0]. *)
Definition flag_set (flags bit : Z) : bool := negb (Z.land flags bit =? 0).

(** ** Spans, headers and requests (h11.h, lines 114-152)

    Fields are prefixed by their struct, since Rocq has one name space for
    all record projections. *)

Record h11_span_t : Type := mk_span {
  span_off : Z;
  span_len : Z
}.

Record h11_header_t : Type := mk_header {
  hdr_name : h11_span_t;
  hdr_value : h11_span_t;
  hdr_name_id : Z;
  hdr_flags : Z
}.

Record h11_request_t : Type := mk_request {
  req_method : h11_span_t;
  req_target : h11_span_t;
  req_content_length : Z;
  req_header_count : Z;
  req_trailer_count : Z;
  req_version : Z;
  req_target_form : Z;
  req_body_type : Z;
  req_flags : Z;
  req_reserved0 : Z;
  req_known_idx : list Z;
  req_reserved1 : Z;
  req_headers : option (list h11_header_t);
  req_trailers : option (list h11_header_t)
}.

(** ** Memory reads *)

Definition bind {A B : Type} (a : option A) (f : A -> option B) : option B :=
  match a with
  | Some x => f x
  | None => None
  end.

Notation "'let?' x ':=' a 'in' b" := (bind a (fun x => b))
  (at level 10, x name, a at level 100, b at level 200).

(** [p[i]] for a pointer [p] to the first element of the object [obj]. *)
Definition read {A : Type} (obj : list A) (i : Z) : option A :=
  if i <? 0 then None else nth_error obj (Z.to_nat i).

(** [strlen]: the number of bytes before the first NUL; running off the
    end of the object without meeting one is undefined. *)
Fixpoint strlen (s : list byte) : option Z :=
  match s with
  | [] => None
  | c :: rest =>
      if u8_of_char c =? 0 then Some 0
      else let? n := strlen rest in Some (n + 1)
  end.

(** ** Case-insensitive comparison (util.c, lines 156-174) *)

Definition h11_ascii_fold (c : Z) : Z :=
  if (65 <=? c) && (c <=? 90) then wrap8 (Z.lor c 0x20) else c.

(** The [for] loop of [h11_span_eq_case], with [n] iterations left and
    the loop variable at [i]; [ap] is [base + a.off].  The loop variable is
    a [usize] below [blen], so [i++] never wraps. *)
Fixpoint span_eq_loop (base : list byte) (off : Z) (b : list byte)
    (n : nat) (i : Z) : option bool :=
  match n with
  | O => Some true
  | S n' =>
      let? x := read base (off + i) in
      let? y := read b i in
      if negb (h11_ascii_fold (u8_of_char x) =? h11_ascii_fold (u8_of_char y))
      then Some false
      else span_eq_loop base off b n' (i + 1)
  end.

Definition h11_span_eq_case (base : option (list byte)) (a : h11_span_t)
    (b : option (list byte)) (blen : Z) : option bool :=
  match base, b with
  | Some base_obj, Some b_obj =>
      if negb (span_len a =? blen) then Some false
      else span_eq_loop base_obj (span_off a) b_obj (Z.to_nat blen) 0
  | _, _ => Some false
  end.

Definition h11_header_name_eq (base : option (list byte)) (name : h11_span_t)
    (cmp : option (list byte)) : option bool :=
  match cmp with
  | None => Some false
  | Some cmp_obj =>
      let? blen := strlen cmp_obj in
      h11_span_eq_case base name cmp blen
  end.

(** ** Header lookup (util.c, lines 176-186) *)

(** The [for] loop of [h11_find_header], with [n] iterations left and the
    loop variable at [i].  The loop variable is a [u32] below
    [header_count], so [i++] never wraps; the result is [(int)i]. *)
Fixpoint find_header_loop (headers : list h11_header_t)
    (base name : option (list byte)) (n : nat) (i : Z) : option Z :=
  match n with
  | O => Some (-1)
  | S n' =>
      let? h := read headers i in
      let? m := h11_header_name_eq base (hdr_name h) name in
      if m then Some (int_of_unsigned i)
      else find_header_loop headers base name n' (i + 1)
  end.

Definition h11_find_header (req : option h11_request_t)
    (base name : option (list byte)) : option Z :=
  match req, base, name with
  | Some r, Some _, Some _ =>
      match req_headers r with
      | None => Some (-1)
      | Some headers =>
          if req_header_count r >? INT_MAX then Some (-1)
          else find_header_loop headers base name
                 (Z.to_nat (req_header_count r)) 0
      end
  | _, _, _ => Some (-1)
  end.

(** ** Vocabulary of the statements *)

(** The span [s] lies inside the object [obj]. *)
Definition span_within (s : h11_span_t) (obj : list byte) : Prop :=
  0 <= span_off s /\ 0 <= span_len s /\
  span_off s + span_len s <= Z.of_nat (List.length obj).

(** The bytes [obj[off .. off+len)]. *)
Definition slice (obj : list byte) (off len : Z) : list byte :=
  firstn (Z.to_nat len) (skipn (Z.to_nat off) obj).

Definition span_bytes (obj : list byte) (s : h11_span_t) : list byte :=
  slice obj (span_off s) (span_len s).

(** The characters of the C string stored at the start of [obj]. *)
Fixpoint cstr_bytes (obj : list byte) : list byte :=
  match obj with
  | [] => []
  | c :: rest => if u8_of_char c =? 0 then [] else c :: cstr_bytes rest
  end.

(** ASCII lowercasing of a byte string, by the fold the code uses. *)
Definition fold_bytes (l : list byte) : list Z :=
  map (fun c => h11_ascii_fold (u8_of_char c)) l.

(** A C string: the characters of a literal followed by NUL. *)
Definition cstr (s : string) : list byte := chars s ++ [x00].

(** The header at index [j] compares equal to (differs from) [name],
    as [h11_header_name_eq] decides it. *)
Definition header_matches (headers : list h11_header_t)
    (base name : option (list byte)) (j : Z) : Prop :=
  exists h, read headers j = Some h /\
            h11_header_name_eq base (hdr_name h) name = Some true.

Definition header_differs (headers : list h11_header_t)
    (base name : option (list byte)) (j : Z) : Prop :=
  exists h, read headers j = Some h /\
            h11_header_name_eq base (hdr_name h) name = Some false.

(** No index in [lo, hi) matches. *)
Definition no_match (headers : list h11_header_t)
    (base name : option (list byte)) (lo hi : Z) : Prop :=
  forall j, lo <= j < hi -> header_differs headers base name j.

(** [r] is the smallest matching index in [lo, hi). *)
Definition first_match (headers : list h11_header_t)
    (base name : option (list byte)) (lo hi r : Z) : Prop :=
  lo <= r < hi /\ header_matches headers base name r /\
  no_match headers base name lo r.

(** What a lookup that scans the whole header list has to return. *)
Definition lookup_result (headers : list h11_header_t)
    (base name : option (list byte)) (count res : Z) : Prop :=
  (res = -1 /\ no_match headers base name 0 count) \/
  first_match headers base name 0 count res.

(** ** Sample data *)

Definition sample_base : list byte :=
  cstr "Host" ++ cstr "example.com" ++ cstr "Content-Type" ++
  cstr "text/html" ++ cstr "Connection" ++ cstr "keep-alive".

Definition sample_headers : list h11_header_t :=
  [ mk_header (mk_span 0 4) (mk_span 5 11) 0 1;
    mk_header (mk_span 17 12) (mk_span 30 9) 0xFFFF 0;
    mk_header (mk_span 40 10) (mk_span 51 10) 3 1 ].

Definition request_of (count : Z) (headers : option (list h11_header_t))
  : h11_request_t :=
  {| req_method := mk_span 0 0; req_target := mk_span 0 0;
     req_content_length := 0; req_header_count := count;
     req_trailer_count := 0; req_version := 0; req_target_form := 0;
     req_body_type := 0; req_flags := 0; req_reserved0 := 0;
     req_known_idx := repeat 0xFFFF 6; req_reserved1 := 0;
     req_headers := headers; req_trailers := None |}.

Definition sample_request : h11_request_t :=
  request_of 3 (Some sample_headers).

(** A request whose header array has 2^31 entries, every one naming the
    same span; the array is never built by the proofs below. *)
Definition huge_headers : list h11_header_t :=
  mk_header (mk_span 0 4) (mk_span 5 11) 0 1
  :: repeat (mk_header (mk_span 0 4) (mk_span 5 11) 0 1) (Z.to_nat INT_MAX).

Definition huge_request : h11_request_t :=
  request_of (INT_MAX + 1) (Some huge_headers).

(** ** Vocabulary of the further properties *)

(** The byte that holds the [u8] value [z]. *)
Definition byte_of_u8 (z : Z) : byte :=
  match Byte.of_N (Z.to_N z) with
  | Some c => c
  | None => x00
  end.

(** [h11_ascii_fold] from byte to byte. *)
Definition fold_byte (c : byte) : byte :=
  byte_of_u8 (h11_ascii_fold (u8_of_char c)).

(** * The block scanner (http_scan.c)

    A 512-bit vector is the list of its 64 byte lanes, lane 0 first (the
    byte at the lowest address of a load); a [__mmask64] is an integer
    whose bit [k] is the answer for lane [k].  The intrinsics are those of
    [immintrin.h], modelled lane by lane. *)

Definition wrap64 (z : Z) : Z := z mod 2 ^ 64.

Fixpoint zip_with {A B C : Type} (f : A -> B -> C)
    (la : list A) (lb : list B) : list C :=
  match la, lb with
  | x :: la', y :: lb' => f x y :: zip_with f la' lb'
  | _, _ => []
  end.

(** The mask with bit [k] set when lane [k] is true. *)
Fixpoint mask_of_lanes (l : list bool) : Z :=
  match l with
  | [] => 0
  | b :: rest => Z.b2z b + 2 * mask_of_lanes rest
  end.

Definition _mm512_set1_epi8 (v : Z) : list Z := repeat (wrap8 v) 64.

(** An aligned 64-byte load at [buf + i].  The object [buf] starts at a
    64-byte boundary (main allocates it with [aligned_alloc(64, _)]), so
    the address is aligned when [i] is a multiple of 64; the 64 bytes have
    to lie inside the object. *)
Definition _mm512_load_si512 (buf : list byte) (i : Z) : option (list Z) :=
  if (0 <=? i) && (i mod 64 =? 0) && (i + 64 <=? Z.of_nat (List.length buf))
  then Some (map u8_of_char (slice buf i 64))
  else None.

Definition _mm512_cmpeq_epi8_mask (a b : list Z) : Z :=
  mask_of_lanes (zip_with Z.eqb a b).
Definition _mm512_or_si512 (a b : list Z) : list Z := zip_with Z.lor a b.
Definition _mm512_sub_epi8 (a b : list Z) : list Z :=
  zip_with (fun x y => wrap8 (x - y)) a b.
Definition _mm512_cmplt_epu8_mask (a b : list Z) : Z :=
  mask_of_lanes (zip_with Z.ltb a b).

(** [http_tok_t]: each field is an array of two masks. *)
Record http_tok_t : Type := mk_tok {
  tok_sp : Z * Z;
  tok_cr : Z * Z;
  tok_lf : Z * Z;
  tok_col : Z * Z;
  tok_alpha : Z * Z
}.

(** The body of the loop of [http_scan_ws_loop] up to the test: the masks
    stored in [*t] for the 128-byte block at [buf + i]. *)
Definition scan_block (buf : list byte) (i : Z) : option http_tok_t :=
  let vsp := _mm512_set1_epi8 0x20 in
  let vcr := _mm512_set1_epi8 0x0D in
  let vlf := _mm512_set1_epi8 0x0A in
  let vcol := _mm512_set1_epi8 0x3A in
  let va := _mm512_set1_epi8 97 in
  let v26 := _mm512_set1_epi8 26 in
  let? d0 := _mm512_load_si512 buf i in
  let? d1 := _mm512_load_si512 buf (i + 64) in
  let f0 := _mm512_or_si512 d0 vsp in
  let f1 := _mm512_or_si512 d1 vsp in
  let s0 := _mm512_sub_epi8 f0 va in
  let s1 := _mm512_sub_epi8 f1 va in
  Some {| tok_sp := (_mm512_cmpeq_epi8_mask d0 vsp,
                     _mm512_cmpeq_epi8_mask d1 vsp);
          tok_cr := (_mm512_cmpeq_epi8_mask d0 vcr,
                     _mm512_cmpeq_epi8_mask d1 vcr);
          tok_lf := (_mm512_cmpeq_epi8_mask d0 vlf,
                     _mm512_cmpeq_epi8_mask d1 vlf);
          tok_col := (_mm512_cmpeq_epi8_mask d0 vcol,
                      _mm512_cmpeq_epi8_mask d1 vcol);
          tok_alpha := (_mm512_cmplt_epu8_mask s0 v26,
                        _mm512_cmplt_epu8_mask s1 v26) |}.

(** [any0 | any1]. *)
Definition tok_any (t : http_tok_t) : Z :=
  let any0 :=
    Z.lor (Z.lor (Z.lor (Z.lor (fst (tok_sp t)) (fst (tok_cr t)))
                        (fst (tok_lf t)))
                 (fst (tok_col t)))
          (fst (tok_alpha t)) in
  let any1 :=
    Z.lor (Z.lor (Z.lor (Z.lor (snd (tok_sp t)) (snd (tok_cr t)))
                        (snd (tok_lf t)))
                 (snd (tok_col t)))
          (snd (tok_alpha t)) in
  Z.lor any0 any1.

(** The [for] loop, from the test [i < len] on.  The result is the
    returned [int] with the final contents of [*t] and [*pos].  [fuel]
    bounds the number of iterations; [None] is a load outside the buffer
    or a loop that does not end within [fuel] iterations. *)
Fixpoint scan_loop (buf : list byte) (len : Z) (fuel : nat) (i : Z)
    (t : http_tok_t) (pos : Z) : option (Z * http_tok_t * Z) :=
  if i <? len then
    match fuel with
    | O => None
    | S fuel' =>
        let? t' := scan_block buf i in
        if negb (tok_any t' =? 0) then Some (1, t', i)
        else scan_loop buf len fuel' (wrap64 (i + 128)) t' pos
    end
  else Some (0, t, pos).

(** Every iteration advances [i] by 128, so [len] iterations are more than
    any terminating run takes. *)
Definition http_scan_ws_loop (buf : list byte) (len : Z)
    (t : http_tok_t) (pos : Z) : option (Z * http_tok_t * Z) :=
  scan_loop buf len (Z.to_nat len) 0 t pos.

(** [padded] in [main]: [(flen + 127) & ~127UL] on 64-bit [size_t]. *)
Definition main_padded (flen : Z) : Z :=
  Z.land (wrap64 (flen + 127)) (wrap64 (Z.lnot 127)).

(** The byte classes the scanner looks for. *)
Definition is_colon (c : byte) : bool := u8_of_char c =? 0x3A.
Definition is_alpha (c : byte) : bool :=
  in_rangeb 65 90 c || in_rangeb 97 122 c.
Definition scan_class (c : byte) : bool :=
  h11_is_sp c || h11_is_cr c || h11_is_lf c || is_colon c || is_alpha c.

(** Bit [k] (0..127) of a pair of masks: lane [k] of the 128-byte block. *)
Definition tok_bit (m : Z * Z) (k : Z) : bool :=
  if k <? 64 then Z.testbit (fst m) k else Z.testbit (snd m) (k - 64).

Definition tok_zero : http_tok_t :=
  mk_tok (0, 0) (0, 0) (0, 0) (0, 0) (0, 0).

(** A 256-byte buffer: a block of digits, then a request line, padded
    with NUL. *)
Definition scan_sample : list byte :=
  repeat x30 128 ++ chars "GET / HTTP/1.1" ++ [x0d; x0a]
  ++ repeat x00 112.

(** The mask of the lanes of [bytes] that satisfy [p], and the masks of a
    128-byte block given as its two halves. *)
Definition class_mask (p : byte -> bool) (bytes : list byte) : Z :=
  mask_of_lanes (map p bytes).

Definition block_masks (b0 b1 : list byte) : http_tok_t :=
  {| tok_sp := (class_mask h11_is_sp b0, class_mask h11_is_sp b1);
     tok_cr := (class_mask h11_is_cr b0, class_mask h11_is_cr b1);
     tok_lf := (class_mask h11_is_lf b0, class_mask h11_is_lf b1);
     tok_col := (class_mask is_colon b0, class_mask is_colon b1);
     tok_alpha := (class_mask is_alpha b0, class_mask is_alpha b1) |}.

(** No byte of [buf] below [hi] belongs to a class the scanner looks
    for. *)
Definition nothing_below (buf : list byte) (hi : Z) : Prop :=
  forall j c, 0 <= j < hi -> read buf j = Some c -> scan_class c = false.

(** Both masks of a pair fit a [__mmask64]. *)
Definition mask64 (m : Z * Z) : Prop :=
  0 <= fst m < 2 ^ 64 /\ 0 <= snd m < 2 ^ 64.

(** The buffer [main] scans: [padded] bytes set to zero by [memset], then
    overwritten from the start with the [flen] bytes of the file (the
    allocation succeeds and [fread] delivers the whole file). *)
Definition main_buffer (content : list byte) : list byte :=
  let flen := Z.of_nat (List.length content) in
  content ++ repeat x00 (Z.to_nat (main_padded flen - flen)).

(** ** Lemmas on bytes *)

Lemma u8_of_char_range (c : byte) : 0 <= u8_of_char c <= 255.
Proof.
  unfold u8_of_char. pose proof (Byte.to_N_bounded c). lia.
Qed.

Lemma is_char_ofb_spec (s : string) (c : byte) :
  is_char_ofb s c = true <-> is_char_of s c.
Proof.
  unfold is_char_ofb, is_char_of. rewrite existsb_exists. split.
  - intros [x [Hin Heq]]. apply Byte.byte_dec_bl in Heq. now subst.
  - intros Hin. exists c. split; [assumption | now apply Byte.byte_dec_lb].
Qed.

Lemma in_rangeb_spec (lo hi : Z) (c : byte) :
  in_rangeb lo hi c = true <-> in_range lo hi c.
Proof.
  unfold in_rangeb, in_range. rewrite andb_true_iff, !Z.leb_le. tauto.
Qed.

(** The boolean form of each classifier, checked on all 256 bytes. *)

Lemma h11_is_vchar_ranges (c : byte) :
  h11_is_vchar c =
  (u8_of_char c =? 0x09) || in_rangeb 0x20 0x7E c || (0x80 <=? u8_of_char c).
Proof. destruct c; reflexivity. Qed.

Lemma h11_is_tchar_sets (c : byte) :
  h11_is_tchar c =
  is_char_ofb "!#$%&'*+-.^_`|~" c
  || in_rangeb 48 57 c || in_rangeb 65 90 c || in_rangeb 97 122 c.
Proof. destruct c; reflexivity. Qed.

Lemma h11_is_uri_sets (c : byte) :
  h11_is_uri c =
  (in_rangeb 65 90 c || in_rangeb 97 122 c || in_rangeb 48 57 c
   || is_char_ofb "-._~" c)
  || is_char_ofb "!$&'()*+,;=" c
  || is_char_ofb ":@/%" c.
Proof. destruct c; reflexivity. Qed.

Lemma h11_hexval_cases (c : byte) :
  h11_hexval c =
  if in_rangeb 48 57 c then u8_of_char c - 48
  else if in_rangeb 65 70 c then u8_of_char c - 65 + 10
  else if in_rangeb 97 102 c then u8_of_char c - 97 + 10
  else -1.
Proof. destruct c; reflexivity. Qed.

(** ** Character classifiers *)

(** C1 (as stated, refuted): the claim says a byte is a vchar exactly when it
    lies in 0x21..0x7E or is at least 0x80.  At the horizontal tab 0x09 and
    at the space 0x20 the classifier answers true although neither byte is
    in either range. *)
Lemma h11_is_vchar_htab_counterexample :
  ~ (h11_is_vchar x09 = true <->
     (in_range 0x21 0x7E x09 \/ 0x80 <= u8_of_char x09)) /\
  ~ (h11_is_vchar x20 = true <->
     (in_range 0x21 0x7E x20 \/ 0x80 <= u8_of_char x20)).
Proof.
  split; intros [Hcode _]; specialize (Hcode eq_refl);
    unfold in_range in Hcode.
  - change (u8_of_char x09) with 9 in Hcode. lia.
  - change (u8_of_char x20) with 32 in Hcode. lia.
Qed.

(** C1 (amended): for every byte value b, h11_is_vchar(b) is true if and only
    if b is the horizontal tab 0x09, or b lies in 0x20..0x7E (the space and
    the visible ASCII characters), or b is at least 0x80. *)
Theorem h11_is_vchar_spec (b : byte) :
  h11_is_vchar b = true <->
  (u8_of_char b = 0x09 \/ in_range 0x20 0x7E b \/ 0x80 <= u8_of_char b).
Proof.
  rewrite h11_is_vchar_ranges, !orb_true_iff, in_rangeb_spec.
  rewrite Z.eqb_eq, Z.leb_le. tauto.
Qed.

(** C6: for every byte value b, h11_is_tchar(b) is true if and only if b is
    one of the fifteen symbols ! # $ % & ' * + - . ^ _ ` | ~, an ASCII digit,
    or an ASCII letter of either case. *)
Theorem h11_is_tchar_spec :
  List.length (chars "!#$%&'*+-.^_`|~") = 15%nat /\
  forall b : byte,
    h11_is_tchar b = true <->
    (is_char_of "!#$%&'*+-.^_`|~" b \/ ascii_digit b \/
     ascii_upper b \/ ascii_lower b).
Proof.
  split; [reflexivity | intros b].
  rewrite h11_is_tchar_sets, !orb_true_iff, is_char_ofb_spec.
  rewrite !in_rangeb_spec. unfold ascii_digit, ascii_upper, ascii_lower.
  tauto.
Qed.

(** C7: for every byte value b, h11_is_uri(b) is true if and only if b is
    unreserved (a letter, a digit, or one of - . _ ~), a sub-delim (one of
    ! $ & ' ( ) * + , ; =), or one of : @ / %; the question mark and the
    hash sign are not uri-chars. *)
Theorem h11_is_uri_spec :
  (forall b : byte,
     h11_is_uri b = true <->
     ((ascii_upper b \/ ascii_lower b \/ ascii_digit b \/
       is_char_of "-._~" b) \/
      is_char_of "!$&'()*+,;=" b \/
      is_char_of ":@/%" b)) /\
  chars "?#" = [x3f; x23] /\
  h11_is_uri x3f = false /\ h11_is_uri x23 = false.
Proof.
  split; [intros b | repeat split].
  rewrite h11_is_uri_sets, !orb_true_iff, !is_char_ofb_spec.
  rewrite !in_rangeb_spec. unfold ascii_digit, ascii_upper, ascii_lower.
  tauto.
Qed.

(** ** Hex-nibble decoder *)

(** C5: for every byte value c, h11_hexval(c) is c - '0' on '0'..'9', the
    values 10..15 on 'A'..'F' and on 'a'..'f' in order, and -1 on every
    other byte; it is defined on all 256 byte values, with a result in
    -1..15. *)
Theorem h11_hexval_spec (c : byte) :
  (in_range 48 57 c -> h11_hexval c = u8_of_char c - 48) /\
  (in_range 65 70 c ->
   h11_hexval c = 10 + (u8_of_char c - 65) /\ 10 <= h11_hexval c <= 15) /\
  (in_range 97 102 c ->
   h11_hexval c = 10 + (u8_of_char c - 97) /\ 10 <= h11_hexval c <= 15) /\
  (~ in_range 48 57 c -> ~ in_range 65 70 c -> ~ in_range 97 102 c ->
   h11_hexval c = -1) /\
  -1 <= h11_hexval c <= 15.
Proof.
  rewrite h11_hexval_cases.
  destruct (in_rangeb 48 57 c) eqn:Hd;
    [apply in_rangeb_spec in Hd
    | assert (~ in_range 48 57 c)
        by (rewrite <- in_rangeb_spec; congruence)];
  (destruct (in_rangeb 65 70 c) eqn:Hu;
    [apply in_rangeb_spec in Hu
    | assert (~ in_range 65 70 c)
        by (rewrite <- in_rangeb_spec; congruence)]);
  (destruct (in_rangeb 97 102 c) eqn:Hl;
    [apply in_rangeb_spec in Hl
    | assert (~ in_range 97 102 c)
        by (rewrite <- in_rangeb_spec; congruence)]);
  unfold in_range in *; repeat split; intros; lia.
Qed.

Lemma h11_hexval_spec_witness :
  h11_hexval x37 = 7 /\ h11_hexval x43 = 12 /\ h11_hexval x66 = 15 /\
  h11_hexval x67 = -1.
Proof.
  destruct (h11_hexval_spec x37) as [Hd _].
  destruct (h11_hexval_spec x43) as [_ [Hu _]].
  destruct (h11_hexval_spec x66) as [_ [_ [Hl _]]].
  destruct (h11_hexval_spec x67) as [_ [_ [_ [Ho _]]]].
  unfold in_range in *.
  change (u8_of_char x37) with 55 in Hd.
  change (u8_of_char x43) with 67 in Hu.
  change (u8_of_char x66) with 102 in Hl.
  change (u8_of_char x67) with 103 in Ho.
  split; [| split; [| split]].
  - apply Hd. lia.
  - apply Hu. lia.
  - apply Hl. lia.
  - apply Ho; lia.
Defined.

(** ** Default configuration *)

(** C3: h11_config_default() has max_body_size UINT64_MAX (unlimited),
    request-line and header-line limits 8192, header-section limit 65536,
    header-count limit 100, chunk-extension limit 1024, and flags in which
    STRICT_CRLF, REJECT_OBS_FOLD, ALLOW_OBS_TEXT, ALLOW_LEADING_CRLF and
    REJECT_TE_CL_CONFLICT are set and TOLERATE_SPACES is clear. *)
Theorem h11_config_default_spec :
  max_body_size h11_config_default = 18446744073709551615 /\
  max_request_line_len h11_config_default = 8192 /\
  max_header_line_len h11_config_default = 8192 /\
  max_headers_size h11_config_default = 65536 /\
  max_header_count h11_config_default = 100 /\
  max_chunk_ext_len h11_config_default = 1024 /\
  flag_set (cfg_flags h11_config_default) H11_CFG_STRICT_CRLF = true /\
  flag_set (cfg_flags h11_config_default) H11_CFG_REJECT_OBS_FOLD = true /\
  flag_set (cfg_flags h11_config_default) H11_CFG_ALLOW_OBS_TEXT = true /\
  flag_set (cfg_flags h11_config_default) H11_CFG_ALLOW_LEADING_CRLF = true /\
  flag_set (cfg_flags h11_config_default) H11_CFG_REJECT_TE_CL_CONFLICT
    = true /\
  flag_set (cfg_flags h11_config_default) H11_CFG_TOLERATE_SPACES = false.
Proof. repeat split. Qed.

(** ** Error catalog *)

Lemma error_tables_at (e : Z) :
  0 <= e < H11_ERR__COUNT ->
  exists n m,
    In (e, n, m) H11_ERROR_LIST /\
    h11_error_name e = Some n /\ h11_error_message e = Some m.
Proof.
  intros He. change H11_ERR__COUNT with 33 in He.
  assert (Hk : exists k, e = Z.of_nat k /\ (k < 33)%nat)
    by (exists (Z.to_nat e); lia).
  destruct Hk as [k [-> Hk]].
  do 33 (destruct k as [| k];
         [ do 2 eexists; split; [| split; reflexivity];
           repeat (try (left; reflexivity); right) | ]).
  exfalso. lia.
Qed.

Lemma error_out_of_range (e : Z) :
  - 2 ^ 31 <= e < 2 ^ 32 -> e < 0 \/ H11_ERR__COUNT <= e ->
  h11_error_name e = Some "UNKNOWN"%string /\
  h11_error_message e = Some "UNKNOWN"%string.
Proof.
  intros Hrange Hout. change H11_ERR__COUNT with 33 in Hout.
  unfold h11_error_name, h11_error_message, unsigned_of_int, wrap32.
  change H11_ERR__COUNT with 33.
  assert (Hge : e mod 2 ^ 32 >= 33) by (Z.div_mod_to_equations; lia).
  destruct (e mod 2 ^ 32 >=? 33) eqn:Hcmp; [split; reflexivity | lia].
Qed.

(** C8: for every status ordinal e (any value a 32-bit enum object can
    hold), h11_error_name(e) and h11_error_message(e) are non-null.  For
    0 <= e < H11_ERR__COUNT they are the symbolic name and the English
    message written out row by row below: row e of the catalog is the
    enumerator with ordinal e, the string of its identifier and its
    message (H11_ERR_INVALID_METHOD and Invalid HTTP method for ordinal 2),
    and it is also the row that the error list of util.c gives for e, the
    list naming each ordinal exactly once and in order.  For e negative or
    at least H11_ERR__COUNT both are the string UNKNOWN. *)
Theorem h11_error_strings_spec :
  map (fun x => fst (fst x)) H11_ERROR_LIST = map Z.of_nat (seq 0 33) /\
  H11_ERR__COUNT = 33 /\
  h11_error_name H11_ERR_INVALID_METHOD
    = Some "H11_ERR_INVALID_METHOD"%string /\
  h11_error_message H11_ERR_INVALID_METHOD
    = Some "Invalid HTTP method"%string /\
  forall e : Z,
    - 2 ^ 31 <= e < 2 ^ 32 ->
    (0 <= e < H11_ERR__COUNT ->
     exists n m,
       nth_error
         ([
          (H11_OK, "H11_OK",
           "Success");
          (H11_NEED_MORE_DATA, "H11_NEED_MORE_DATA",
           "Need more data");
          (H11_ERR_INVALID_METHOD, "H11_ERR_INVALID_METHOD",
           "Invalid HTTP method");
          (H11_ERR_INVALID_TARGET, "H11_ERR_INVALID_TARGET",
           "Invalid request target");
          (H11_ERR_INVALID_VERSION, "H11_ERR_INVALID_VERSION",
           "Invalid HTTP version");
          (H11_ERR_REQUEST_LINE_TOO_LONG, "H11_ERR_REQUEST_LINE_TOO_LONG",
           "Request line too long");
          (H11_ERR_INVALID_CRLF, "H11_ERR_INVALID_CRLF",
           "Invalid line ending");
          (H11_ERR_INVALID_HEADER_NAME, "H11_ERR_INVALID_HEADER_NAME",
           "Invalid header name");
          (H11_ERR_INVALID_HEADER_VALUE, "H11_ERR_INVALID_HEADER_VALUE",
           "Invalid header value");
          (H11_ERR_HEADER_LINE_TOO_LONG, "H11_ERR_HEADER_LINE_TOO_LONG",
           "Header line too long");
          (H11_ERR_TOO_MANY_HEADERS, "H11_ERR_TOO_MANY_HEADERS",
           "Too many headers");
          (H11_ERR_HEADERS_TOO_LARGE, "H11_ERR_HEADERS_TOO_LARGE",
           "Headers section too large");
          (H11_ERR_OBS_FOLD_REJECTED, "H11_ERR_OBS_FOLD_REJECTED",
           "Obsolete line folding rejected");
          (H11_ERR_LEADING_WHITESPACE, "H11_ERR_LEADING_WHITESPACE",
           "Leading whitespace in header section");
          (H11_ERR_MISSING_HOST, "H11_ERR_MISSING_HOST",
           "Missing Host header");
          (H11_ERR_MULTIPLE_HOST, "H11_ERR_MULTIPLE_HOST",
           "Multiple Host headers");
          (H11_ERR_INVALID_HOST, "H11_ERR_INVALID_HOST",
           "Invalid Host header value");
          (H11_ERR_INVALID_CONTENT_LENGTH, "H11_ERR_INVALID_CONTENT_LENGTH",
           "Invalid Content-Length value");
          (H11_ERR_MULTIPLE_CONTENT_LENGTH, "H11_ERR_MULTIPLE_CONTENT_LENGTH",
           "Conflicting Content-Length values");
          (H11_ERR_CONTENT_LENGTH_OVERFLOW, "H11_ERR_CONTENT_LENGTH_OVERFLOW",
           "Content-Length value overflow");
          (H11_ERR_INVALID_TRANSFER_ENCODING, "H11_ERR_INVALID_TRANSFER_ENCODING",
           "Invalid Transfer-Encoding");
          (H11_ERR_TE_NOT_CHUNKED_FINAL, "H11_ERR_TE_NOT_CHUNKED_FINAL",
           "Transfer-Encoding final coding is not chunked");
          (H11_ERR_TE_CL_CONFLICT, "H11_ERR_TE_CL_CONFLICT",
           "Transfer-Encoding and Content-Length both present");
          (H11_ERR_UNKNOWN_TRANSFER_CODING, "H11_ERR_UNKNOWN_TRANSFER_CODING",
           "Unknown transfer coding");
          (H11_ERR_BODY_TOO_LARGE, "H11_ERR_BODY_TOO_LARGE",
           "Body exceeds maximum size");
          (H11_ERR_INVALID_CHUNK_SIZE, "H11_ERR_INVALID_CHUNK_SIZE",
           "Invalid chunk size");
          (H11_ERR_CHUNK_SIZE_OVERFLOW, "H11_ERR_CHUNK_SIZE_OVERFLOW",
           "Chunk size overflow");
          (H11_ERR_INVALID_CHUNK_EXT, "H11_ERR_INVALID_CHUNK_EXT",
           "Invalid chunk extension");
          (H11_ERR_CHUNK_EXT_TOO_LONG, "H11_ERR_CHUNK_EXT_TOO_LONG",
           "Chunk extension too long");
          (H11_ERR_INVALID_CHUNK_DATA, "H11_ERR_INVALID_CHUNK_DATA",
           "Invalid chunk data");
          (H11_ERR_INVALID_TRAILER, "H11_ERR_INVALID_TRAILER",
           "Invalid trailer field");
          (H11_ERR_CONNECTION_CLOSED, "H11_ERR_CONNECTION_CLOSED",
           "Connection closed");
          (H11_ERR_INTERNAL, "H11_ERR_INTERNAL",
           "Internal error") ])%string
         (Z.to_nat e) = Some (e, n, m) /\
       In (e, n, m) H11_ERROR_LIST /\
       h11_error_name e = Some n /\ h11_error_message e = Some m) /\
    (e < 0 \/ H11_ERR__COUNT <= e ->
     h11_error_name e = Some "UNKNOWN"%string /\
     h11_error_message e = Some "UNKNOWN"%string) /\
    h11_error_name e <> None /\ h11_error_message e <> None.
Proof.
  do 4 (split; [reflexivity |]). intros e Hrange.
  split; [| split; [now apply error_out_of_range |]].
  - intros He. change H11_ERR__COUNT with 33 in He.
    assert (Hk : exists k, e = Z.of_nat k /\ (k < 33)%nat)
      by (exists (Z.to_nat e); lia).
    destruct Hk as [k [-> Hk]]. rewrite Nat2Z.id.
    do 33 (destruct k as [| k];
           [ do 2 eexists; split; [reflexivity |];
             split; [repeat (try (left; reflexivity); right) |];
             split; reflexivity | ]).
    exfalso. lia.
  - destruct (Z_lt_dec e 0) as [Hneg | Hpos];
      [| destruct (Z_le_dec H11_ERR__COUNT e) as [Hbig | Hin]].
    + destruct (error_out_of_range e Hrange (or_introl Hneg)) as [-> ->].
      split; discriminate.
    + destruct (error_out_of_range e Hrange (or_intror Hbig)) as [-> ->].
      split; discriminate.
    + destruct (error_tables_at e) as [n [m [_ [-> ->]]]]; [lia |].
      split; discriminate.
Qed.

Lemma h11_error_strings_spec_witness :
  h11_error_name H11_ERR_INVALID_METHOD
    = Some "H11_ERR_INVALID_METHOD"%string /\
  h11_error_message H11_ERR_INVALID_METHOD
    = Some "Invalid HTTP method"%string /\
  h11_error_name H11_ERR_INTERNAL = Some "H11_ERR_INTERNAL"%string /\
  h11_error_message H11_ERR_INTERNAL = Some "Internal error"%string /\
  h11_error_name (-1) = Some "UNKNOWN"%string /\
  h11_error_message 999 = Some "UNKNOWN"%string.
Proof.
  destruct h11_error_strings_spec as [_ [_ [_ [_ Hspec]]]].
  destruct (Hspec H11_ERR_INVALID_METHOD) as [Hmethod _];
    [vm_compute; split; [discriminate | reflexivity] |].
  destruct (Hspec H11_ERR_INTERNAL) as [Hinternal _];
    [vm_compute; split; [discriminate | reflexivity] |].
  destruct (Hspec (-1)) as [_ [Hneg _]];
    [vm_compute; split; [discriminate | reflexivity] |].
  destruct (Hspec 999) as [_ [Hbig _]];
    [vm_compute; split; [discriminate | reflexivity] |].
  destruct Hmethod as [n [m [Hrow [_ [Hn Hm]]]]];
    [vm_compute; split; [discriminate | reflexivity] |].
  destruct Hinternal as [n' [m' [Hrow' [_ [Hn' Hm']]]]];
    [vm_compute; split; [discriminate | reflexivity] |].
  cbn in Hrow, Hrow'.
  injection Hrow as <- <-. injection Hrow' as <- <-.
  split; [exact Hn |]. split; [exact Hm |].
  split; [exact Hn' |]. split; [exact Hm' |].
  split.
  - apply Hneg. left. reflexivity.
  - apply Hbig. right. vm_compute. discriminate.
Defined.

(** ** Memory reads and slices *)

Lemma read_in_bounds {A : Type} (obj : list A) (i : Z) :
  0 <= i < Z.of_nat (List.length obj) -> exists x, read obj i = Some x.
Proof.
  intros Hi. unfold read.
  destruct (i <? 0) eqn:Hneg; [apply Z.ltb_lt in Hneg; lia |].
  destruct (nth_error obj (Z.to_nat i)) as [x |] eqn:Hnth; [now exists x |].
  apply nth_error_None in Hnth. lia.
Qed.

Lemma read_bounds {A : Type} (obj : list A) (i : Z) (x : A) :
  read obj i = Some x -> 0 <= i < Z.of_nat (List.length obj).
Proof.
  unfold read. destruct (i <? 0) eqn:Hneg; [discriminate |].
  apply Z.ltb_ge in Hneg. intros Hnth.
  assert (Hlt : (Z.to_nat i < List.length obj)%nat)
    by (apply nth_error_Some; congruence).
  lia.
Qed.

Lemma skipn_nth_error {A : Type} (l : list A) (k : nat) (x : A) :
  nth_error l k = Some x -> skipn k l = x :: skipn (S k) l.
Proof.
  revert k. induction l as [| a l IH]; intros [| k] Hnth;
    try discriminate.
  - now injection Hnth as ->.
  - apply IH in Hnth. exact Hnth.
Qed.

Lemma slice_step (obj : list byte) (k : Z) (n : nat) (x : byte) :
  read obj k = Some x ->
  slice obj k (Z.of_nat (S n)) = x :: slice obj (k + 1) (Z.of_nat n).
Proof.
  intros Hread. pose proof (read_bounds _ _ _ Hread) as Hk.
  unfold read in Hread.
  destruct (k <? 0); [discriminate |].
  unfold slice. rewrite !Nat2Z.id.
  replace (Z.to_nat (k + 1)) with (S (Z.to_nat k)) by lia.
  rewrite (skipn_nth_error _ _ _ Hread). reflexivity.
Qed.

Lemma slice_empty (obj : list byte) (k : Z) : slice obj k 0 = [].
Proof. reflexivity. Qed.

Lemma slice_length (obj : list byte) (off len : Z) :
  0 <= off -> 0 <= len -> off + len <= Z.of_nat (List.length obj) ->
  Z.of_nat (List.length (slice obj off len)) = len.
Proof.
  intros Hoff Hlen Hfit. unfold slice.
  rewrite length_firstn, length_skipn. lia.
Qed.

Lemma fold_bytes_length (l : list byte) :
  List.length (fold_bytes l) = List.length l.
Proof. apply length_map. Qed.

(** ** The string length *)

Lemma strlen_spec (s : list byte) (n : Z) :
  strlen s = Some n ->
  0 <= n < Z.of_nat (List.length s) /\
  cstr_bytes s = slice s 0 n /\
  read s n = Some x00.
Proof.
  revert n. induction s as [| c s IH]; intros n Hlen; [discriminate |].
  simpl in Hlen. unfold slice, read. cbn [cstr_bytes List.length].
  destruct (u8_of_char c =? 0) eqn:Hnul.
  - injection Hlen as <-. repeat split; try lia.
    destruct c; try discriminate. reflexivity.
  - destruct (strlen s) as [m |] eqn:Hrest; [| discriminate].
    injection Hlen as <-.
    destruct (IH m eq_refl) as [Hm [Hbytes Hend]].
    unfold slice, read in Hbytes, Hend.
    destruct (m <? 0) eqn:Hneg; [discriminate |].
    replace (m + 1 <? 0) with false by (symmetry; apply Z.ltb_ge; lia).
    replace (Z.to_nat (m + 1)) with (S (Z.to_nat m)) by lia.
    repeat split; try lia.
    + change (Z.to_nat 0) with 0%nat in *. cbn [skipn firstn] in *.
      now rewrite Hbytes.
    + exact Hend.
Qed.

(** ** Case-insensitive comparison *)

Lemma h11_ascii_fold_byte (c : byte) :
  h11_ascii_fold (u8_of_char c) =
  if in_rangeb 65 90 c then u8_of_char c + 32 else u8_of_char c.
Proof. destruct c; reflexivity. Qed.

Lemma fold_bytes_cons (x : byte) (l : list byte) :
  fold_bytes (x :: l) = h11_ascii_fold (u8_of_char x) :: fold_bytes l.
Proof. reflexivity. Qed.

Lemma span_eq_loop_spec (base : list byte) (off : Z) (b : list byte) :
  forall (n : nat) (i : Z),
    0 <= off -> 0 <= i ->
    off + i + Z.of_nat n <= Z.of_nat (List.length base) ->
    i + Z.of_nat n <= Z.of_nat (List.length b) ->
    exists r,
      span_eq_loop base off b n i = Some r /\
      (r = true <->
       fold_bytes (slice base (off + i) (Z.of_nat n))
       = fold_bytes (slice b i (Z.of_nat n))).
Proof.
  induction n as [| n IH]; intros i Hoff Hi Hbase Hb.
  - exists true. split; [reflexivity |]. rewrite !slice_empty. tauto.
  - destruct (read_in_bounds base (off + i)) as [x Hx]; [lia |].
    destruct (read_in_bounds b i) as [y Hy]; [lia |].
    cbn [span_eq_loop]. rewrite Hx, Hy. cbn [bind].
    rewrite (slice_step _ _ _ _ Hx), (slice_step _ _ _ _ Hy).
    rewrite !fold_bytes_cons.
    destruct (h11_ascii_fold (u8_of_char x) =? h11_ascii_fold (u8_of_char y))
      eqn:Hcmp; cbn [negb].
    + apply Z.eqb_eq in Hcmp. rewrite Hcmp.
      destruct (IH (i + 1)) as [r [Hloop Hr]]; try lia.
      exists r. split; [exact Hloop |].
      rewrite Z.add_assoc in Hr. rewrite Hr.
      split; [intros ->; reflexivity | intros Heq; now injection Heq].
    + apply Z.eqb_neq in Hcmp. exists false. split; [reflexivity |].
      split; [discriminate | intros Heq; injection Heq; intros; contradiction].
Qed.

Lemma h11_span_eq_case_spec (base : list byte) (a : h11_span_t)
    (b : list byte) (blen : Z) :
  span_within a base -> 0 <= blen <= Z.of_nat (List.length b) ->
  exists r,
    h11_span_eq_case (Some base) a (Some b) blen = Some r /\
    (r = true <->
     fold_bytes (span_bytes base a) = fold_bytes (slice b 0 blen)).
Proof.
  intros [Hoff [Hlen Hfit]] Hblen. unfold h11_span_eq_case, span_bytes.
  destruct (span_len a =? blen) eqn:Hcmp; cbn [negb].
  - apply Z.eqb_eq in Hcmp.
    destruct (span_eq_loop_spec base (span_off a) b (Z.to_nat blen) 0)
      as [r [Hloop Hr]]; try lia.
    exists r. split; [exact Hloop |].
    rewrite Hr, Z2Nat.id, Z.add_0_r, Hcmp by lia. tauto.
  - apply Z.eqb_neq in Hcmp. exists false. split; [reflexivity |].
    split; [discriminate |]. intros Heq. exfalso. apply Hcmp.
    apply (f_equal (@List.length Z)) in Heq.
    rewrite !fold_bytes_length in Heq.
    apply (f_equal Z.of_nat) in Heq.
    rewrite !slice_length in Heq; lia.
Qed.

Lemma h11_header_name_eq_spec (b : list byte) (s : h11_span_t)
    (n : list byte) (L : Z) :
  span_within s b -> strlen n = Some L ->
  exists r,
    h11_header_name_eq (Some b) s (Some n) = Some r /\
    (r = true <-> fold_bytes (span_bytes b s) = fold_bytes (cstr_bytes n)) /\
    (r = true -> span_len s = L) /\
    Z.of_nat (List.length (cstr_bytes n)) = L.
Proof.
  intros Hin Hlen. destruct (strlen_spec n L Hlen) as [HL [Hbytes _]].
  destruct (h11_span_eq_case_spec b s n L Hin) as [r [Hcase Hr]]; [lia |].
  assert (Hcount : Z.of_nat (List.length (cstr_bytes n)) = L)
    by (rewrite Hbytes; apply slice_length; lia).
  exists r. unfold h11_header_name_eq. rewrite Hlen. cbn [bind].
  rewrite Hbytes. repeat split; try tauto.
  - intros ->. destruct Hr as [Hr _]. specialize (Hr eq_refl).
    apply (f_equal (@List.length Z)) in Hr.
    rewrite !fold_bytes_length in Hr. apply (f_equal Z.of_nat) in Hr.
    destruct Hin as [Hoff [Hslen Hfit]]. unfold span_bytes in Hr.
    rewrite !slice_length in Hr; lia.
  - now rewrite <- Hbytes.
Qed.

(** C2: for every base buffer b, span s within it and C string n,
    h11_header_name_eq(b, s, n) returns a result, and that result is true
    if and only if the ASCII-lowercased bytes b[s.off .. s.off+s.len) equal
    the ASCII-lowercased bytes of n; a true result forces s.len to be the
    length of n.  ASCII lowercasing maps a byte c to c | 0x20 (which is
    c + 32) when c is in 'A'..'Z' and to c otherwise. *)
Theorem h11_header_name_eq_case_fold :
  (forall (b : list byte) (s : h11_span_t) (n : list byte) (L : Z),
     span_within s b -> strlen n = Some L ->
     exists r,
       h11_header_name_eq (Some b) s (Some n) = Some r /\
       (r = true <->
        fold_bytes (span_bytes b s) = fold_bytes (cstr_bytes n)) /\
       (r = true -> span_len s = Z.of_nat (List.length (cstr_bytes n)))) /\
  (forall c : byte,
     (ascii_upper c ->
      h11_ascii_fold (u8_of_char c) = Z.lor (u8_of_char c) 0x20 /\
      h11_ascii_fold (u8_of_char c) = u8_of_char c + 32) /\
     (~ ascii_upper c -> h11_ascii_fold (u8_of_char c) = u8_of_char c)).
Proof.
  split.
  - intros b s n L Hin Hlen.
    destruct (h11_header_name_eq_spec b s n L Hin Hlen)
      as [r [Heq [Hiff [Hlen_eq Hcount]]]].
    exists r. repeat split; try tauto. intros Hr. rewrite Hcount. auto.
  - intros c. unfold ascii_upper. rewrite <- in_rangeb_spec.
    destruct c; split; intros H; try reflexivity;
      try (exfalso; apply H; reflexivity); try discriminate H;
      split; reflexivity.
Qed.

Lemma h11_header_name_eq_case_fold_witness :
  span_within (mk_span 17 12) sample_base /\
  strlen (cstr "CONTENT-TYPE") = Some 12 /\
  h11_header_name_eq (Some sample_base) (mk_span 17 12)
    (Some (cstr "CONTENT-TYPE")) = Some true.
Proof.
  assert (Hin : span_within (mk_span 17 12) sample_base)
    by (unfold span_within; simpl; lia).
  assert (Hlen : strlen (cstr "CONTENT-TYPE") = Some 12) by reflexivity.
  destruct h11_header_name_eq_case_fold as [Hspec _].
  destruct (Hspec _ _ _ _ Hin Hlen) as [r [Heq [Hiff _]]].
  split; [exact Hin | split; [exact Hlen |]].
  rewrite Heq. f_equal. apply Hiff. reflexivity.
Defined.

(** ** Header lookup *)

Lemma int_of_unsigned_small (i : Z) : i <= INT_MAX -> int_of_unsigned i = i.
Proof.
  intros Hi. unfold int_of_unsigned.
  destruct (i <=? INT_MAX) eqn:Hcmp; [reflexivity |].
  apply Z.leb_gt in Hcmp. lia.
Qed.

(** Whatever the loop returns is -1 after a scan without a match, or the
    first matching index. *)
Lemma find_header_loop_sound (headers : list h11_header_t)
    (base name : option (list byte)) :
  forall (n : nat) (i res : Z),
    0 <= i -> i + Z.of_nat n <= INT_MAX + 1 ->
    find_header_loop headers base name n i = Some res ->
    (res = -1 /\ no_match headers base name i (i + Z.of_nat n)) \/
    first_match headers base name i (i + Z.of_nat n) res.
Proof.
  induction n as [| n IH]; intros i res Hi Hmax Hloop.
  - injection Hloop as <-. left. split; [reflexivity |].
    intros j Hj. lia.
  - cbn [find_header_loop] in Hloop.
    destruct (read headers i) as [h |] eqn:Hread; [| discriminate].
    cbn [bind] in Hloop.
    destruct (h11_header_name_eq base (hdr_name h) name) as [[|] |] eqn:Heq;
      cbn [bind] in Hloop; [| | discriminate].
    + rewrite int_of_unsigned_small in Hloop by lia. injection Hloop as <-.
      right. split; [lia |]. split; [now exists h |].
      intros j Hj. lia.
    + assert (Hhere : header_differs headers base name i) by now exists h.
      destruct (IH (i + 1) res) as [[Hres Hnone] | [Hr [Hm Hbefore]]];
        try lia; try assumption.
      * left. split; [exact Hres |]. intros j Hj.
        destruct (Z.eq_dec j i) as [-> | Hne]; [exact Hhere |].
        apply Hnone. lia.
      * right. split; [lia |]. split; [exact Hm |]. intros j Hj.
        destruct (Z.eq_dec j i) as [-> | Hne]; [exact Hhere |].
        apply Hbefore. lia.
Qed.

(** The loop returns when every comparison it can reach is defined. *)
Lemma find_header_loop_defined (headers : list h11_header_t)
    (base name : option (list byte)) :
  forall (n : nat) (i : Z),
    0 <= i -> i + Z.of_nat n <= Z.of_nat (List.length headers) ->
    (forall h, In h headers ->
               exists m, h11_header_name_eq base (hdr_name h) name = Some m) ->
    exists res, find_header_loop headers base name n i = Some res.
Proof.
  induction n as [| n IH]; intros i Hi Hfit Hdef; [now exists (-1) |].
  destruct (read_in_bounds headers i) as [h Hread]; [lia |].
  cbn [find_header_loop]. rewrite Hread. cbn [bind].
  assert (Hin : In h headers).
  { unfold read in Hread. destruct (i <? 0); [discriminate |].
    eapply nth_error_In; eassumption. }
  destruct (Hdef h Hin) as [[|] Heq]; rewrite Heq; cbn [bind].
  - eexists; reflexivity.
  - apply IH; [lia | lia | exact Hdef].
Qed.

Lemma h11_find_header_sound (req : option h11_request_t)
    (base name : option (list byte)) (res : Z) :
  h11_find_header req base name = Some res ->
  res = -1 \/
  exists r headers,
    req = Some r /\ req_headers r = Some headers /\
    req_header_count r <= INT_MAX /\
    lookup_result headers base name
      (Z.of_nat (Z.to_nat (req_header_count r))) res.
Proof.
  unfold h11_find_header.
  destruct req as [r |]; [| intros [= <-]; now left].
  destruct base as [b |]; [| intros [= <-]; now left].
  destruct name as [n |]; [| intros [= <-]; now left].
  destruct (req_headers r) as [headers |] eqn:Hhs;
    [| intros [= <-]; now left].
  destruct (req_header_count r >? INT_MAX) eqn:Hcmp;
    [intros [= <-]; now left |].
  assert (Hle : req_header_count r <= INT_MAX)
    by (rewrite Z.gtb_ltb in Hcmp; apply Z.ltb_ge in Hcmp; exact Hcmp).
  assert (Hpos : 0 <= INT_MAX) by (unfold INT_MAX; lia).
  intros Hloop. apply find_header_loop_sound in Hloop; [| lia | lia].
  destruct (Z.eq_dec res (-1)) as [-> | Hne]; [now left | right].
  exists r, headers. repeat split; try assumption.
Qed.

Lemma h11_find_header_over_int_max (r : h11_request_t)
    (base name : option (list byte)) :
  req_header_count r > INT_MAX ->
  h11_find_header (Some r) base name = Some (-1).
Proof.
  intros Hbig. unfold h11_find_header.
  destruct base; [| reflexivity]. destruct name; [| reflexivity].
  destruct (req_headers r); [| reflexivity].
  destruct (req_header_count r >? INT_MAX) eqn:Hcmp; [reflexivity |].
  rewrite Z.gtb_ltb in Hcmp. apply Z.ltb_ge in Hcmp. lia.
Qed.

(** With more than INT_MAX headers the lookup answers -1 even when the
    very first header matches. *)
Lemma lookup_result_fails_over_int_max (r : h11_request_t)
    (h0 : h11_header_t) (rest : list h11_header_t)
    (base name : option (list byte)) :
  req_header_count r > INT_MAX ->
  h11_header_name_eq base (hdr_name h0) name = Some true ->
  ~ exists res,
      h11_find_header (Some r) base name = Some res /\
      lookup_result (h0 :: rest) base name (req_header_count r) res.
Proof.
  intros Hbig Hmatch [res [Hres Hlook]].
  rewrite h11_find_header_over_int_max in Hres by exact Hbig.
  injection Hres as <-.
  assert (Hpos : 0 <= INT_MAX) by (unfold INT_MAX; lia).
  destruct Hlook as [[_ Hnone] | [Hrange _]]; [| lia].
  destruct (Hnone 0) as [h [Hread Hdiff]]; [lia |].
  injection Hread as <-. congruence.
Qed.

Lemma huge_headers_length :
  Z.of_nat (List.length huge_headers) = req_header_count huge_request.
Proof.
  unfold huge_headers. cbn [List.length].
  rewrite repeat_length, Nat2Z.inj_succ, Z2Nat.id by (unfold INT_MAX; lia).
  reflexivity.
Qed.

(** C4 (as stated, refuted): the claim promises the smallest matching
    index for every request whose header list has header_count entries.
    For a list of INT_MAX + 1 entries whose first header is named Host,
    looking up host returns -1, which is neither the first match nor the
    answer for a list without a match. *)
Lemma h11_find_header_huge_count_counterexample :
  req_headers huge_request = Some huge_headers /\
  Z.of_nat (List.length huge_headers) = req_header_count huge_request /\
  strlen (cstr "host") = Some 4 /\
  Forall (fun h => span_within (hdr_name h) sample_base) huge_headers /\
  h11_find_header (Some huge_request) (Some sample_base) (Some (cstr "host"))
    = Some (-1) /\
  header_matches huge_headers (Some sample_base) (Some (cstr "host")) 0 /\
  ~ exists res,
      h11_find_header (Some huge_request) (Some sample_base)
        (Some (cstr "host")) = Some res /\
      lookup_result huge_headers (Some sample_base) (Some (cstr "host"))
        (req_header_count huge_request) res.
Proof.
  assert (Hbig : req_header_count huge_request > INT_MAX) by reflexivity.
  assert (Hmatch :
            h11_header_name_eq (Some sample_base) (mk_span 0 4)
              (Some (cstr "host")) = Some true) by reflexivity.
  assert (Hin : span_within (mk_span 0 4) sample_base)
    by (unfold span_within; simpl; lia).
  split; [reflexivity |].
  split; [exact huge_headers_length |].
  split; [reflexivity |].
  split.
  { unfold huge_headers. constructor; [exact Hin |].
    apply Forall_forall. intros h Hh. apply repeat_spec in Hh.
    subst h. exact Hin. }
  split; [now apply h11_find_header_over_int_max |].
  split.
  { unfold huge_headers. eexists. split; [reflexivity | exact Hmatch]. }
  unfold huge_headers.
  apply lookup_result_fails_over_int_max; [exact Hbig | exact Hmatch].
Qed.

(** C4 (amended): for every request record whose header list has
    header_count entries with header_count at most INT_MAX, every name span
    lying in the base buffer, and every C string name, h11_find_header
    returns the smallest index i < header_count whose name span matches the
    name case-insensitively (per h11_header_name_eq), and returns -1 when
    no header matches. *)
Theorem h11_find_header_first_match (r : h11_request_t)
    (headers : list h11_header_t) (b n : list byte) (L : Z) :
  req_headers r = Some headers ->
  Z.of_nat (List.length headers) = req_header_count r ->
  req_header_count r <= INT_MAX ->
  strlen n = Some L ->
  Forall (fun h => span_within (hdr_name h) b) headers ->
  exists res,
    h11_find_header (Some r) (Some b) (Some n) = Some res /\
    lookup_result headers (Some b) (Some n) (req_header_count r) res.
Proof.
  intros Hhs Hcount Hmax Hlen Hspans.
  assert (Hdef : exists res,
             h11_find_header (Some r) (Some b) (Some n) = Some res).
  { unfold h11_find_header. rewrite Hhs.
    destruct (req_header_count r >? INT_MAX) eqn:Hcmp; [now exists (-1) |].
    apply find_header_loop_defined; [lia | lia |].
    intros h Hh. rewrite Forall_forall in Hspans.
    destruct (h11_header_name_eq_spec b (hdr_name h) n L (Hspans h Hh) Hlen)
      as [m [Hm _]].
    now exists m. }
  destruct Hdef as [res Hres]. exists res. split; [exact Hres |].
  unfold h11_find_header in Hres. rewrite Hhs in Hres.
  destruct (req_header_count r >? INT_MAX) eqn:Hcmp.
  { rewrite Z.gtb_ltb in Hcmp. apply Z.ltb_lt in Hcmp. lia. }
  apply find_header_loop_sound in Hres; [| lia | unfold INT_MAX in *; lia].
  rewrite Z.add_0_l, Z2Nat.id in Hres by lia. exact Hres.
Qed.

Lemma h11_find_header_first_match_witness :
  exists res,
    h11_find_header (Some sample_request) (Some sample_base)
      (Some (cstr "content-type")) = Some res /\
    lookup_result sample_headers (Some sample_base)
      (Some (cstr "content-type")) 3 res.
Proof.
  apply (h11_find_header_first_match sample_request sample_headers
           sample_base (cstr "content-type") 12).
  - reflexivity.
  - reflexivity.
  - vm_compute. discriminate.
  - reflexivity.
  - unfold sample_headers, span_within.
    repeat constructor; simpl; lia.
Defined.

(** ** Null inputs *)

(** C9: the lookup and comparison operations answer on null inputs
    without reading through them: h11_span_eq_case is false when base or
    the compared string is NULL, h11_header_name_eq is false when cmp is
    NULL, and h11_find_header is -1 when the request, base, name or the
    request's headers pointer is NULL. *)
Theorem h11_null_inputs_total :
  (forall a b blen, h11_span_eq_case None a b blen = Some false) /\
  (forall base a blen, h11_span_eq_case base a None blen = Some false) /\
  (forall base s, h11_header_name_eq base s None = Some false) /\
  (forall base name, h11_find_header None base name = Some (-1)) /\
  (forall req name, h11_find_header req None name = Some (-1)) /\
  (forall req base, h11_find_header req base None = Some (-1)) /\
  (forall r base name,
     req_headers r = None -> h11_find_header (Some r) base name = Some (-1)).
Proof.
  repeat split.
  - intros [base |] a blen; reflexivity.
  - intros [r |] [name |]; reflexivity.
  - intros [r |] [base |]; reflexivity.
  - intros r [base |] [name |] Hnull; try reflexivity.
    unfold h11_find_header. now rewrite Hnull.
Qed.

Lemma h11_null_inputs_total_witness :
  req_headers (request_of 0 None) = None /\
  h11_find_header (Some (request_of 0 None)) (Some (cstr ""))
    (Some (cstr "Host")) = Some (-1).
Proof.
  destruct h11_null_inputs_total as [_ [_ [_ [_ [_ [_ Hnull]]]]]].
  split; [reflexivity | apply Hnull; reflexivity].
Defined.

(** ** Range of the result *)

(** C10: for every request whose header_count exceeds INT_MAX,
    h11_find_header returns -1; and whatever h11_find_header returns is
    either -1 or the index of a matching header that is nonnegative, below
    header_count and at most INT_MAX, so that the conversion to int keeps
    its value. *)
Theorem h11_find_header_int_result :
  (forall r base name,
     req_header_count r > INT_MAX ->
     h11_find_header (Some r) base name = Some (-1)) /\
  (forall req base name res,
     h11_find_header req base name = Some res ->
     res = -1 \/
     (0 <= res <= INT_MAX /\ int_of_unsigned res = res /\
      exists r headers,
        req = Some r /\ req_headers r = Some headers /\
        res < req_header_count r /\
        header_matches headers base name res)).
Proof.
  split; [exact h11_find_header_over_int_max |].
  intros req base name res Hres.
  destruct (h11_find_header_sound _ _ _ _ Hres)
    as [Hminus | [r [headers [Hreq [Hhs [Hmax Hlook]]]]]]; [now left |].
  destruct Hlook as [[Hminus _] | [Hrange [Hmatch _]]]; [now left | right].
  assert (Hres_max : res <= INT_MAX) by lia.
  split; [lia |]. split; [now apply int_of_unsigned_small |].
  exists r, headers. repeat split; try assumption. lia.
Qed.

Lemma h11_find_header_int_result_witness :
  h11_find_header (Some huge_request) (Some sample_base) (Some (cstr "host"))
    = Some (-1) /\
  (2 = -1 \/
   (0 <= 2 <= INT_MAX /\ int_of_unsigned 2 = 2 /\
    exists r headers,
      Some sample_request = Some r /\ req_headers r = Some headers /\
      2 < req_header_count r /\
      header_matches headers (Some sample_base) (Some (cstr "connection")) 2)).
Proof.
  destruct h11_find_header_int_result as [Hbig Hsound].
  split.
  - apply Hbig. reflexivity.
  - apply (Hsound (Some sample_request)). reflexivity.
Defined.

(** ** The checks of test_util.c *)

Example find_header_sample :
  h11_find_header (Some sample_request) (Some sample_base)
    (Some (cstr "host")) = Some 0 /\
  h11_find_header (Some sample_request) (Some sample_base)
    (Some (cstr "HOST")) = Some 0 /\
  h11_find_header (Some sample_request) (Some sample_base)
    (Some (cstr "content-type")) = Some 1 /\
  h11_find_header (Some sample_request) (Some sample_base)
    (Some (cstr "connection")) = Some 2 /\
  h11_find_header (Some sample_request) (Some sample_base)
    (Some (cstr "x-missing")) = Some (-1) /\
  h11_find_header (Some sample_request) (Some sample_base)
    (Some (cstr "Accept")) = Some (-1).
Proof. vm_compute. repeat split. Qed.

Example span_eq_case_sample :
  h11_span_eq_case (Some (cstr "")) (mk_span 0 0) (Some (cstr "")) 0
    = Some true /\
  h11_span_eq_case (Some (cstr "Host")) (mk_span 0 4) (Some (cstr "Hos")) 3
    = Some false /\
  h11_span_eq_case (Some (cstr "x-my-1")) (mk_span 0 6)
    (Some (cstr "X-MY-1")) 6 = Some true /\
  h11_span_eq_case (Some (cstr "a-b")) (mk_span 0 3) (Some (cstr "a_b")) 3
    = Some false.
Proof. vm_compute. repeat split. Qed.

Example header_name_eq_sample :
  h11_header_name_eq (Some (cstr "Content-Length")) (mk_span 0 14)
    (Some (cstr "CONTENT-LENGTH")) = Some true /\
  h11_header_name_eq (Some (cstr "Content-Length")) (mk_span 0 14)
    (Some (cstr "content-type")) = Some false.
Proof. vm_compute. repeat split. Qed.

Example hexval_invalid_chars :
  map h11_hexval (chars "Gg/:@`") = [-1; -1; -1; -1; -1; -1] /\
  h11_hexval x00 = -1 /\ h11_hexval xff = -1.
Proof. vm_compute. repeat split. Qed.

Example vchar_boundaries :
  map h11_is_vchar [x00; x08; x0a; x1f; x7f]
    = [false; false; false; false; false] /\
  map h11_is_vchar [x09; x20; x21; x7e; x80; xff]
    = [true; true; true; true; true; true].
Proof. vm_compute. repeat split. Qed.

(** * Further properties of util.c *)

(** ** Digit and hex-digit tables *)

Lemma h11_is_digit_ranges (c : byte) : h11_is_digit c = in_rangeb 48 57 c.
Proof. destruct c; reflexivity. Qed.

Lemma h11_is_hexdig_ranges (c : byte) :
  h11_is_hexdig c =
  in_rangeb 48 57 c || in_rangeb 65 70 c || in_rangeb 97 102 c.
Proof. destruct c; reflexivity. Qed.

(** X1: for every byte value b, h11_is_digit(b) is true if and only if b is
    one of '0'..'9'. *)
Theorem h11_is_digit_spec (b : byte) :
  h11_is_digit b = true <-> ascii_digit b.
Proof.
  rewrite h11_is_digit_ranges. apply in_rangeb_spec.
Qed.

(** X2: for every byte value b, h11_is_hexdig(b) is true if and only if b
    is one of '0'..'9', 'A'..'F' or 'a'..'f'. *)
Theorem h11_is_hexdig_spec (b : byte) :
  h11_is_hexdig b = true <->
  (ascii_digit b \/ in_range 65 70 b \/ in_range 97 102 b).
Proof.
  rewrite h11_is_hexdig_ranges, !orb_true_iff, !in_rangeb_spec.
  unfold ascii_digit. tauto.
Qed.

(** X3: the hex-digit table and the nibble decoder agree: h11_is_hexdig(c)
    is true exactly when h11_hexval(c) is not -1, and h11_is_digit(c) is
    true exactly when h11_hexval(c) lies in 0..9. *)
Theorem h11_is_hexdig_iff_hexval (c : byte) :
  (h11_is_hexdig c = true <-> h11_hexval c <> -1) /\
  (h11_is_digit c = true <-> 0 <= h11_hexval c <= 9).
Proof.
  rewrite h11_is_hexdig_ranges, h11_is_digit_ranges, h11_hexval_cases.
  unfold in_rangeb.
  pose proof (u8_of_char_range c) as Hc.
  destruct (48 <=? u8_of_char c) eqn:H1; destruct (u8_of_char c <=? 57) eqn:H2;
    destruct (65 <=? u8_of_char c) eqn:H3;
    destruct (u8_of_char c <=? 70) eqn:H4;
    destruct (97 <=? u8_of_char c) eqn:H5;
    destruct (u8_of_char c <=? 102) eqn:H6;
    cbn [andb orb];
    rewrite ?Z.leb_le, ?Z.leb_gt in *;
    (split; split; intros; try lia; try reflexivity; try discriminate).
Qed.

(** ** How the classes nest *)

(** X4: every digit is a hex digit; every hex digit is both a token
    character and a uri character; every token character and every uri
    character is accepted by the vchar table. *)
Theorem classifier_inclusions (c : byte) :
  (h11_is_digit c = true -> h11_is_hexdig c = true) /\
  (h11_is_hexdig c = true ->
   h11_is_tchar c = true /\ h11_is_uri c = true) /\
  (h11_is_tchar c = true -> h11_is_vchar c = true) /\
  (h11_is_uri c = true -> h11_is_vchar c = true).
Proof.
  destruct c; vm_compute; repeat split; intros; easy.
Qed.

Lemma classifier_inclusions_witness :
  h11_is_hexdig x37 = true /\
  (h11_is_tchar x66 = true /\ h11_is_uri x66 = true) /\
  h11_is_vchar x7e = true /\ h11_is_vchar x2f = true.
Proof.
  split; [| split; [| split]].
  - apply (classifier_inclusions x37). reflexivity.
  - apply (classifier_inclusions x66). reflexivity.
  - apply (proj1 (proj2 (proj2 (classifier_inclusions x7e)))). reflexivity.
  - apply (proj2 (proj2 (proj2 (classifier_inclusions x2f)))). reflexivity.
Defined.

(** X5: a byte that h11_is_cr or h11_is_lf accepts is rejected by all five
    tables; a byte that h11_is_ows accepts (SP or HTAB) is rejected by the
    tchar, digit, hexdig and uri tables and accepted by the vchar table. *)
Theorem separators_and_classes (c : byte) :
  (h11_is_cr c = true \/ h11_is_lf c = true ->
   h11_is_tchar c = false /\ h11_is_vchar c = false /\
   h11_is_digit c = false /\ h11_is_hexdig c = false /\
   h11_is_uri c = false) /\
  (h11_is_ows c = true ->
   h11_is_tchar c = false /\ h11_is_digit c = false /\
   h11_is_hexdig c = false /\ h11_is_uri c = false /\
   h11_is_vchar c = true).
Proof.
  destruct c; vm_compute; split; intros H; try easy;
    destruct H as [H | H]; easy.
Qed.

Lemma separators_and_classes_witness :
  (h11_is_tchar x0d = false /\ h11_is_vchar x0d = false /\
   h11_is_digit x0d = false /\ h11_is_hexdig x0d = false /\
   h11_is_uri x0d = false) /\
  (h11_is_tchar x09 = false /\ h11_is_digit x09 = false /\
   h11_is_hexdig x09 = false /\ h11_is_uri x09 = false /\
   h11_is_vchar x09 = true).
Proof.
  split.
  - apply (proj1 (separators_and_classes x0d)). left. reflexivity.
  - apply (proj2 (separators_and_classes x09)). reflexivity.
Defined.

(** ** The case fold *)

Lemma u8_of_char_inj (c c' : byte) : u8_of_char c = u8_of_char c' -> c = c'.
Proof.
  unfold u8_of_char. intros H. apply N2Z.inj in H.
  pose proof (Byte.of_to_N c) as Hc. rewrite H, Byte.of_to_N in Hc.
  now injection Hc.
Qed.

Lemma fold_byte_value (c : byte) :
  u8_of_char (fold_byte c) = h11_ascii_fold (u8_of_char c).
Proof. destruct c; reflexivity. Qed.

(** X6: on every byte value the case fold returns a byte value, is
    idempotent, never returns an upper-case letter, and changes its
    argument by exactly 32 when it changes it at all. *)
Theorem h11_ascii_fold_idempotent (c : byte) :
  0 <= h11_ascii_fold (u8_of_char c) <= 255 /\
  h11_ascii_fold (h11_ascii_fold (u8_of_char c))
  = h11_ascii_fold (u8_of_char c) /\
  ~ 65 <= h11_ascii_fold (u8_of_char c) <= 90 /\
  (h11_ascii_fold (u8_of_char c) = u8_of_char c \/
   h11_ascii_fold (u8_of_char c) = u8_of_char c + 32).
Proof.
  assert (Hrange : 0 <= h11_ascii_fold (u8_of_char c) <= 255)
    by (rewrite <- fold_byte_value; apply u8_of_char_range).
  split; [exact Hrange |].
  rewrite <- fold_byte_value, !h11_ascii_fold_byte, fold_byte_value.
  rewrite h11_ascii_fold_byte. unfold in_rangeb.
  rewrite fold_byte_value, h11_ascii_fold_byte. unfold in_rangeb.
  pose proof (u8_of_char_range c) as Hc.
  destruct (65 <=? u8_of_char c) eqn:H1; destruct (u8_of_char c <=? 90) eqn:H2;
    cbn [andb]; rewrite ?H1, ?H2; cbn [andb];
    rewrite ?Z.leb_le, ?Z.leb_gt in *;
    try (replace (u8_of_char c + 32 <=? 90) with false
           by (symmetry; apply Z.leb_gt; lia); rewrite andb_false_r);
    repeat split; try lia; try (now left); now right.
Qed.

(** X7: folding the case of a byte changes none of its classifications:
    the byte c' that holds h11_ascii_fold(c) gets the same answer as c from
    the tchar, vchar, digit, hexdig and uri tables and from h11_hexval. *)
Theorem classes_respect_case (c c' : byte) :
  u8_of_char c' = h11_ascii_fold (u8_of_char c) ->
  h11_is_tchar c' = h11_is_tchar c /\
  h11_is_vchar c' = h11_is_vchar c /\
  h11_is_digit c' = h11_is_digit c /\
  h11_is_hexdig c' = h11_is_hexdig c /\
  h11_is_uri c' = h11_is_uri c /\
  h11_hexval c' = h11_hexval c.
Proof.
  intros Hfold. rewrite <- fold_byte_value in Hfold.
  apply u8_of_char_inj in Hfold. subst c'.
  destruct c; repeat split.
Qed.

Lemma classes_respect_case_witness :
  h11_is_tchar x61 = h11_is_tchar x41 /\
  h11_is_vchar x61 = h11_is_vchar x41 /\
  h11_is_digit x61 = h11_is_digit x41 /\
  h11_is_hexdig x61 = h11_is_hexdig x41 /\
  h11_is_uri x61 = h11_is_uri x41 /\
  h11_hexval x61 = h11_hexval x41.
Proof. apply (classes_respect_case x41 x61). reflexivity. Defined.

(** ** The span comparison on its own *)

(** X8: for a span inside the base buffer and a compared buffer holding
    at least blen bytes, h11_span_eq_case returns a result, true if and
    only if the folded bytes of the span equal the folded first blen bytes
    of the compared buffer, which forces a.len = blen; and whenever
    a.len differs from blen the answer is false without any byte being
    read, whatever the span and the buffers are. *)
Theorem h11_span_eq_case_fold :
  (forall (base : list byte) (a : h11_span_t) (b : list byte) (blen : Z),
     span_within a base -> 0 <= blen <= Z.of_nat (List.length b) ->
     exists r,
       h11_span_eq_case (Some base) a (Some b) blen = Some r /\
       (r = true <->
        fold_bytes (span_bytes base a) = fold_bytes (slice b 0 blen)) /\
       (r = true -> span_len a = blen)) /\
  (forall base (a : h11_span_t) b (blen : Z),
     span_len a <> blen -> h11_span_eq_case base a b blen = Some false).
Proof.
  split.
  - intros base a b blen Hin Hblen.
    destruct (h11_span_eq_case_spec base a b blen Hin Hblen) as [r [Hr Hiff]].
    exists r. split; [exact Hr | split; [exact Hiff |]].
    intros ->. unfold h11_span_eq_case in Hr.
    destruct (span_len a =? blen) eqn:Hcmp; [now apply Z.eqb_eq |].
    discriminate Hr.
  - intros [base |] a [b |] blen Hne; try reflexivity.
    unfold h11_span_eq_case. apply Z.eqb_neq in Hne. now rewrite Hne.
Qed.

Lemma h11_span_eq_case_fold_witness :
  h11_span_eq_case (Some (chars "x-my-1")) (mk_span 0 6)
    (Some (chars "X-MY-1")) 6 = Some true /\
  h11_span_eq_case (Some (chars "Host")) (mk_span 0 4)
    (Some (chars "Hostt")) 5 = Some false.
Proof.
  destruct h11_span_eq_case_fold as [Hspec Hlen].
  split.
  - destruct (Hspec (chars "x-my-1") (mk_span 0 6) (chars "X-MY-1") 6)
      as [r [Hr [Hiff _]]].
    + unfold span_within; simpl; lia.
    + simpl; lia.
    + rewrite Hr. f_equal. apply Hiff. reflexivity.
  - apply Hlen. simpl. lia.
Defined.

(** ** Case-insensitivity of the lookup *)

Lemma span_eq_loop_ext (base : list byte) (off : Z) (b b' : list byte) :
  forall (n : nat) (i : Z),
    (forall j, i <= j < i + Z.of_nat n ->
       option_map (fun c => h11_ascii_fold (u8_of_char c)) (read b j)
       = option_map (fun c => h11_ascii_fold (u8_of_char c)) (read b' j)) ->
    span_eq_loop base off b n i = span_eq_loop base off b' n i.
Proof.
  induction n as [| n IH]; intros i Hsame; [reflexivity |].
  cbn [span_eq_loop].
  destruct (read base (off + i)) as [x |]; [| reflexivity]. cbn [bind].
  pose proof (Hsame i ltac:(lia)) as Hi.
  destruct (read b i) as [y |], (read b' i) as [y' |];
    cbn [option_map bind] in *; try discriminate; [| reflexivity].
  injection Hi as ->.
  destruct (negb _); [reflexivity |].
  apply IH. intros j Hj. apply Hsame. lia.
Qed.

Lemma read_cstr_bytes (n : list byte) (L j : Z) :
  strlen n = Some L -> 0 <= j < L -> read n j = read (cstr_bytes n) j.
Proof.
  intros Hlen Hj. destruct (strlen_spec n L Hlen) as [_ [Hbytes _]].
  rewrite Hbytes. unfold slice, read.
  destruct (j <? 0); [reflexivity |].
  change (Z.to_nat 0) with 0%nat. cbn [skipn].
  rewrite nth_error_firstn.
  replace (Z.to_nat j <? Z.to_nat L)%nat with true
    by (symmetry; apply Nat.ltb_lt; lia).
  reflexivity.
Qed.

Lemma strlen_cstr_length (n : list byte) (L : Z) :
  strlen n = Some L -> Z.of_nat (List.length (cstr_bytes n)) = L.
Proof.
  intros Hlen. destruct (strlen_spec n L Hlen) as [HL [Hbytes _]].
  rewrite Hbytes. apply slice_length; lia.
Qed.

Lemma h11_header_name_eq_ext (base : option (list byte)) (s : h11_span_t)
    (n n' : list byte) (L L' : Z) :
  strlen n = Some L -> strlen n' = Some L' ->
  fold_bytes (cstr_bytes n) = fold_bytes (cstr_bytes n') ->
  h11_header_name_eq base s (Some n) = h11_header_name_eq base s (Some n').
Proof.
  intros Hlen Hlen' Hfold.
  assert (HL : L = L').
  { rewrite <- (strlen_cstr_length n L Hlen).
    rewrite <- (strlen_cstr_length n' L' Hlen').
    rewrite <- (fold_bytes_length (cstr_bytes n)), Hfold.
    now rewrite fold_bytes_length. }
  subst L'. unfold h11_header_name_eq. rewrite Hlen, Hlen'. cbn [bind].
  unfold h11_span_eq_case. destruct base as [base |]; [| reflexivity].
  destruct (negb (span_len s =? L)); [reflexivity |].
  apply span_eq_loop_ext. intros j Hj.
  rewrite (read_cstr_bytes n L j Hlen), (read_cstr_bytes n' L j Hlen') by lia.
  unfold read. destruct (j <? 0); [reflexivity |].
  rewrite <- !nth_error_map. unfold fold_bytes in Hfold. now rewrite Hfold.
Qed.

Lemma find_header_loop_ext_name (headers : list h11_header_t)
    (base name name' : option (list byte)) :
  (forall s, h11_header_name_eq base s name
             = h11_header_name_eq base s name') ->
  forall (n : nat) (i : Z),
    find_header_loop headers base name n i
    = find_header_loop headers base name' n i.
Proof.
  intros Hsame. induction n as [| n IH]; intros i; [reflexivity |].
  cbn [find_header_loop].
  destruct (read headers i) as [h |]; [| reflexivity]. cbn [bind].
  rewrite Hsame.
  destruct (h11_header_name_eq base (hdr_name h) name') as [[|] |];
    cbn [bind]; try reflexivity.
  apply IH.
Qed.

(** X9: the lookup is case-insensitive in the name it is given: for two
    C strings whose characters are equal after the case fold,
    h11_header_name_eq gives the same answer on every base buffer and span,
    and h11_find_header gives the same answer on every request. *)
Theorem h11_find_header_case_insensitive (n n' : list byte) (L L' : Z) :
  strlen n = Some L -> strlen n' = Some L' ->
  fold_bytes (cstr_bytes n) = fold_bytes (cstr_bytes n') ->
  (forall base s,
     h11_header_name_eq base s (Some n) = h11_header_name_eq base s (Some n'))
  /\
  (forall req base,
     h11_find_header req base (Some n) = h11_find_header req base (Some n')).
Proof.
  intros Hlen Hlen' Hfold.
  assert (Hname : forall base s,
            h11_header_name_eq base s (Some n)
            = h11_header_name_eq base s (Some n'))
    by (intros base s; now apply (h11_header_name_eq_ext base s n n' L L')).
  split; [exact Hname |].
  intros [r |] [b |]; try reflexivity.
  unfold h11_find_header.
  destruct (req_headers r) as [headers |]; [| reflexivity].
  destruct (req_header_count r >? INT_MAX); [reflexivity |].
  apply find_header_loop_ext_name. intros s. apply Hname.
Qed.

Lemma h11_find_header_case_insensitive_witness :
  h11_find_header (Some sample_request) (Some sample_base)
    (Some (cstr "CoNNection"))
  = h11_find_header (Some sample_request) (Some sample_base)
      (Some (cstr "connection")).
Proof.
  apply (h11_find_header_case_insensitive
           (cstr "CoNNection") (cstr "connection") 10 10);
    reflexivity.
Defined.

(** ** What the lookup reads *)

Lemma find_header_loop_ext_headers (headers headers' : list h11_header_t)
    (base name : option (list byte)) :
  forall (n : nat) (i : Z),
    (forall j, i <= j < i + Z.of_nat n ->
       option_map hdr_name (read headers j)
       = option_map hdr_name (read headers' j)) ->
    find_header_loop headers base name n i
    = find_header_loop headers' base name n i.
Proof.
  induction n as [| n IH]; intros i Hsame; [reflexivity |].
  cbn [find_header_loop].
  pose proof (Hsame i ltac:(lia)) as Hi.
  destruct (read headers i) as [h |], (read headers' i) as [h' |];
    cbn [option_map bind] in *; try discriminate; [| reflexivity].
  injection Hi as ->.
  destruct (h11_header_name_eq base (hdr_name h') name) as [[|] |];
    cbn [bind]; try reflexivity.
  apply IH. intros j Hj. apply Hsame. lia.
Qed.

Lemma read_firstn {A : Type} (l : list A) (count j : Z) :
  0 <= j < count -> read l j = read (firstn (Z.to_nat count) l) j.
Proof.
  intros Hj. unfold read. destruct (j <? 0); [reflexivity |].
  rewrite nth_error_firstn.
  replace (Z.to_nat j <? Z.to_nat count)%nat with true
    by (symmetry; apply Nat.ltb_lt; lia).
  reflexivity.
Qed.

(** X10: h11_find_header looks only at the name spans of the first
    header_count entries of the header array: two requests with the same
    header_count whose arrays agree on those name spans get the same
    answer, whatever their values, name ids, flags, later entries and other
    request fields are. *)
Theorem h11_find_header_reads_names_only (r r' : h11_request_t)
    (headers headers' : list h11_header_t) (base name : option (list byte)) :
  req_headers r = Some headers -> req_headers r' = Some headers' ->
  req_header_count r = req_header_count r' ->
  map hdr_name (firstn (Z.to_nat (req_header_count r)) headers)
  = map hdr_name (firstn (Z.to_nat (req_header_count r)) headers') ->
  h11_find_header (Some r) base name = h11_find_header (Some r') base name.
Proof.
  intros Hhs Hhs' Hcount Hnames. unfold h11_find_header.
  rewrite Hhs, Hhs', <- Hcount.
  destruct base as [b |]; [| reflexivity].
  destruct name as [n |]; [| reflexivity].
  destruct (req_header_count r >? INT_MAX); [reflexivity |].
  apply find_header_loop_ext_headers. intros j Hj.
  assert (Hjc : 0 <= j < req_header_count r) by lia.
  rewrite (read_firstn headers _ j Hjc), (read_firstn headers' _ j Hjc).
  unfold read. destruct (j <? 0); [reflexivity |].
  rewrite <- !nth_error_map. now rewrite Hnames.
Qed.

Lemma h11_find_header_reads_names_only_witness :
  h11_find_header (Some sample_request) (Some sample_base)
    (Some (cstr "connection"))
  = h11_find_header
      (Some (request_of 3
         (Some [ mk_header (mk_span 0 4) (mk_span 0 0) 7 0;
                 mk_header (mk_span 17 12) (mk_span 1 1) 0 0;
                 mk_header (mk_span 40 10) (mk_span 2 2) 0 0;
                 mk_header (mk_span 40 10) (mk_span 3 3) 0 0 ])))
      (Some sample_base) (Some (cstr "connection")).
Proof.
  apply (h11_find_header_reads_names_only sample_request _ sample_headers
           [ mk_header (mk_span 0 4) (mk_span 0 0) 7 0;
             mk_header (mk_span 17 12) (mk_span 1 1) 0 0;
             mk_header (mk_span 40 10) (mk_span 2 2) 0 0;
             mk_header (mk_span 40 10) (mk_span 3 3) 0 0 ]);
    reflexivity.
Defined.

(** ** The error strings identify the error *)

Lemma error_names_listed (k : nat) :
  (k < 33)%nat ->
  h11_error_name (Z.of_nat k)
  = nth_error (map (fun x => snd (fst x)) H11_ERROR_LIST) k /\
  h11_error_message (Z.of_nat k)
  = nth_error (map snd H11_ERROR_LIST) k.
Proof.
  intros Hk.
  do 33 (destruct k as [| k]; [split; reflexivity |]).
  exfalso. lia.
Qed.

Lemma error_name_list_NoDup :
  NoDup (map (fun x => snd (fst x)) H11_ERROR_LIST) /\
  NoDup (map snd H11_ERROR_LIST).
Proof.
  split.
  - assert (H : nodup string_dec (map (fun x => snd (fst x)) H11_ERROR_LIST)
                = map (fun x => snd (fst x)) H11_ERROR_LIST)
      by (vm_compute; reflexivity).
    rewrite <- H. apply NoDup_nodup.
  - assert (H : nodup string_dec (map snd H11_ERROR_LIST)
                = map snd H11_ERROR_LIST)
      by (vm_compute; reflexivity).
    rewrite <- H. apply NoDup_nodup.
Qed.

Lemma error_strings_injective (l : list string) (f : Z -> option string) :
  NoDup l -> List.length l = 33%nat ->
  (forall k, (k < 33)%nat ->
             f (Z.of_nat k) = nth_error l k) ->
  forall e1 e2, 0 <= e1 < 33 -> 0 <= e2 < 33 -> f e1 = f e2 -> e1 = e2.
Proof.
  intros Hnodup Hlen Hf e1 e2 H1 H2 Heq.
  rewrite <- (Z2Nat.id e1), <- (Z2Nat.id e2) in Heq by lia.
  rewrite !Hf in Heq by lia.
  rewrite NoDup_nth_error in Hnodup.
  apply Hnodup in Heq; lia.
Qed.

Lemma error_strings_known (l : list string) (f : Z -> option string) :
  ~ In "UNKNOWN"%string l ->
  (forall k, (k < 33)%nat ->
             f (Z.of_nat k) = nth_error l k) ->
  forall e, 0 <= e < 33 -> f e <> Some "UNKNOWN"%string.
Proof.
  intros Hnot Hf e He Heq.
  rewrite <- (Z2Nat.id e), Hf in Heq by lia.
  apply nth_error_In in Heq. contradiction.
Qed.

Lemma error_lists_lack_unknown :
  ~ In "UNKNOWN"%string (map (fun x => snd (fst x)) H11_ERROR_LIST) /\
  ~ In "UNKNOWN"%string (map snd H11_ERROR_LIST).
Proof.
  split; intros H; cbn in H;
    repeat (destruct H as [H | H]; [discriminate H |]); exact H.
Qed.

(** X11: the error strings identify the error: two different ordinals
    below H11_ERR__COUNT never share a name and never share a message, and
    for every 32-bit ordinal the name (and likewise the message) is the
    string UNKNOWN if and only if the ordinal is negative or at least
    H11_ERR__COUNT. *)
Theorem h11_error_strings_injective :
  (forall e1 e2,
     0 <= e1 < H11_ERR__COUNT -> 0 <= e2 < H11_ERR__COUNT ->
     h11_error_name e1 = h11_error_name e2 -> e1 = e2) /\
  (forall e1 e2,
     0 <= e1 < H11_ERR__COUNT -> 0 <= e2 < H11_ERR__COUNT ->
     h11_error_message e1 = h11_error_message e2 -> e1 = e2) /\
  (forall e,
     - 2 ^ 31 <= e < 2 ^ 32 ->
     (h11_error_name e = Some "UNKNOWN"%string <->
      e < 0 \/ H11_ERR__COUNT <= e) /\
     (h11_error_message e = Some "UNKNOWN"%string <->
      e < 0 \/ H11_ERR__COUNT <= e)).
Proof.
  change H11_ERR__COUNT with 33.
  destruct error_name_list_NoDup as [Hnames Hmsgs].
  assert (Hn : forall k, (k < 33)%nat ->
             h11_error_name (Z.of_nat k)
             = nth_error (map (fun x => snd (fst x)) H11_ERROR_LIST) k)
    by (intros k Hk; apply error_names_listed; exact Hk).
  assert (Hm : forall k, (k < 33)%nat ->
             h11_error_message (Z.of_nat k)
             = nth_error (map snd H11_ERROR_LIST) k)
    by (intros k Hk; apply error_names_listed; exact Hk).
  split; [| split].
  - apply (error_strings_injective _ _ Hnames eq_refl Hn).
  - apply (error_strings_injective _ _ Hmsgs eq_refl Hm).
  - intros e Hrange. split; split.
    + intros Heq. destruct (Z_lt_dec e 0); [now left |].
      destruct (Z_le_dec 33 e); [now right |]. exfalso.
      apply (error_strings_known _ _ (proj1 error_lists_lack_unknown) Hn e);
        [lia | exact Heq].
    + intros Hout. now apply error_out_of_range.
    + intros Heq. destruct (Z_lt_dec e 0); [now left |].
      destruct (Z_le_dec 33 e); [now right |]. exfalso.
      apply (error_strings_known _ _ (proj2 error_lists_lack_unknown) Hm e);
        [lia | exact Heq].
    + intros Hout. now apply error_out_of_range.
Qed.

Lemma h11_error_strings_injective_witness :
  H11_ERR_INVALID_CRLF = 6 /\
  h11_error_name 4294967295 = Some "UNKNOWN"%string.
Proof.
  destruct h11_error_strings_injective as [Hinj [_ Hunk]].
  split.
  - apply Hinj; [| | reflexivity];
      vm_compute; split; (discriminate || reflexivity).
  - apply (Hunk 4294967295).
    + vm_compute; split; (discriminate || reflexivity).
    + right. vm_compute. discriminate.
Defined.

(** ** The nibble decoder and the hex alphabets *)

Lemma h11_hexval_fold (c : byte) :
  h11_hexval c <> -1 ->
  h11_ascii_fold (u8_of_char c)
  = if h11_hexval c <=? 9 then h11_hexval c + 48 else h11_hexval c + 87.
Proof.
  destruct c; intros H; try reflexivity; exfalso; apply H; reflexivity.
Qed.

(** X12: h11_hexval inverts both hex alphabets: the character at position
    v of 0123456789abcdef and of 0123456789ABCDEF decodes to v, for every
    v in 0..15; and two bytes that decode to the same nibble are equal up to
    ASCII case. *)
Theorem h11_hexval_alphabet :
  (forall v,
     0 <= v <= 15 ->
     h11_hexval (nth (Z.to_nat v) (chars "0123456789abcdef") x00) = v /\
     h11_hexval (nth (Z.to_nat v) (chars "0123456789ABCDEF") x00) = v) /\
  (forall c1 c2,
     h11_hexval c1 <> -1 -> h11_hexval c1 = h11_hexval c2 ->
     h11_ascii_fold (u8_of_char c1) = h11_ascii_fold (u8_of_char c2)).
Proof.
  split.
  - intros v Hv.
    assert (Hk : exists k, v = Z.of_nat k /\ (k < 16)%nat)
      by (exists (Z.to_nat v); lia).
    destruct Hk as [k [-> Hk]]. rewrite Nat2Z.id.
    do 16 (destruct k as [| k]; [split; reflexivity |]).
    exfalso. lia.
  - intros c1 c2 Hvalid Heq.
    rewrite (h11_hexval_fold c1 Hvalid).
    rewrite (h11_hexval_fold c2) by (rewrite <- Heq; exact Hvalid).
    now rewrite Heq.
Qed.

Lemma h11_hexval_alphabet_witness :
  h11_hexval (nth (Z.to_nat 11) (chars "0123456789abcdef") x00) = 11 /\
  h11_ascii_fold (u8_of_char x42) = h11_ascii_fold (u8_of_char x62).
Proof.
  destruct h11_hexval_alphabet as [Hinv Hinj].
  split.
  - apply (Hinv 11). lia.
  - apply Hinj; [vm_compute; discriminate | reflexivity].
Defined.

(** ** Appending headers *)

Lemma find_header_loop_extend (headers extra : list h11_header_t)
    (base name : option (list byte)) :
  forall (n : nat) (i res : Z) (m : nat),
    find_header_loop headers base name n i = Some res -> res <> -1 ->
    find_header_loop (headers ++ extra) base name (n + m) i = Some res.
Proof.
  induction n as [| n IH]; intros i res m Hloop Hres.
  - injection Hloop as <-. contradiction.
  - cbn [find_header_loop Nat.add] in *.
    destruct (read headers i) as [h |] eqn:Hread; [| discriminate].
    pose proof (read_bounds _ _ _ Hread) as Hi.
    assert (Hread' : read (headers ++ extra) i = Some h).
    { unfold read in *. destruct (i <? 0); [discriminate |].
      rewrite nth_error_app1 by lia. exact Hread. }
    rewrite Hread'. cbn [bind] in *.
    destruct (h11_header_name_eq base (hdr_name h) name) as [[|] |];
      cbn [bind] in *; [exact Hloop | | discriminate].
    now apply IH.
Qed.

(** X19: appending headers never changes the answer for a name that is
    already found: if h11_find_header returns an index other than -1 for a
    request, it returns the same index for any request whose header array
    starts with the same entries and whose header_count is at least as
    large (and at most INT_MAX). *)
Theorem h11_find_header_stable_under_append (r r' : h11_request_t)
    (headers extra : list h11_header_t) (base name : option (list byte))
    (i : Z) :
  req_headers r = Some headers ->
  req_headers r' = Some (headers ++ extra) ->
  req_header_count r <= req_header_count r' <= INT_MAX ->
  h11_find_header (Some r) base name = Some i -> i <> -1 ->
  h11_find_header (Some r') base name = Some i.
Proof.
  intros Hhs Hhs' Hcount Hfind Hi. unfold h11_find_header in *.
  rewrite Hhs in Hfind. rewrite Hhs'.
  destruct base as [b |]; [| congruence].
  destruct name as [n |]; [| congruence].
  destruct (req_header_count r >? INT_MAX) eqn:Hcmp; [congruence |].
  replace (req_header_count r' >? INT_MAX) with false
    by (symmetry; rewrite Z.gtb_ltb; apply Z.ltb_ge; lia).
  replace (Z.to_nat (req_header_count r'))
    with (Z.to_nat (req_header_count r)
          + (Z.to_nat (req_header_count r')
             - Z.to_nat (req_header_count r)))%nat by lia.
  now apply find_header_loop_extend.
Qed.

Lemma h11_find_header_stable_under_append_witness :
  h11_find_header
    (Some (request_of 4
       (Some (sample_headers
              ++ [mk_header (mk_span 0 4) (mk_span 5 11) 0 1]))))
    (Some sample_base) (Some (cstr "content-type")) = Some 1.
Proof.
  apply (h11_find_header_stable_under_append sample_request _
           sample_headers [mk_header (mk_span 0 4) (mk_span 5 11) 0 1]).
  - reflexivity.
  - reflexivity.
  - vm_compute. split; discriminate.
  - reflexivity.
  - discriminate.
Defined.

(** * Properties of http_scan.c *)

(** ** Lanes and masks *)

Lemma zip_with_repeat_r {A B C : Type} (f : A -> B -> C) (y : B) :
  forall (la : list A) (n : nat),
    List.length la = n -> zip_with f la (repeat y n) = map (fun x => f x y) la.
Proof.
  induction la as [| x la IH]; intros n Hn; subst n; [reflexivity |].
  cbn [List.length repeat zip_with map]. f_equal. now apply IH.
Qed.

Lemma mask_of_lanes_nonneg (l : list bool) : 0 <= mask_of_lanes l.
Proof.
  induction l as [| b l IH]; cbn [mask_of_lanes]; [lia |].
  destruct b; cbn [Z.b2z]; lia.
Qed.

Lemma mask_of_lanes_bound (l : list bool) :
  mask_of_lanes l < 2 ^ Z.of_nat (List.length l).
Proof.
  induction l as [| b l IH]; cbn [mask_of_lanes List.length]; [cbn; lia |].
  rewrite Nat2Z.inj_succ, Z.pow_succ_r by lia.
  destruct b; cbn [Z.b2z]; lia.
Qed.

Lemma mask_of_lanes_testbit (l : list bool) :
  forall k : nat,
    Z.testbit (mask_of_lanes l) (Z.of_nat k) = nth k l false.
Proof.
  induction l as [| b l IH]; intros k; cbn [mask_of_lanes].
  - rewrite Z.testbit_0_l. now destruct k.
  - destruct k as [| k]; cbn [nth].
    + apply Z.add_b2z_double_bit0.
    + rewrite Nat2Z.inj_succ, Z.add_comm, Z.testbit_succ_r by lia.
      apply IH.
Qed.

Lemma mask_of_lanes_zero (l : list bool) :
  mask_of_lanes l = 0 <-> (forall b, In b l -> b = false).
Proof.
  induction l as [| b l IH]; cbn [mask_of_lanes].
  - split; [intros _ b [] | reflexivity].
  - pose proof (mask_of_lanes_nonneg l) as Hpos. split.
    + intros Hzero x [<- | Hin].
      * destruct b; [cbn [Z.b2z] in Hzero; lia | reflexivity].
      * apply IH; [destruct b; cbn [Z.b2z] in Hzero; lia | exact Hin].
    + intros Hall. rewrite (Hall b (or_introl eq_refl)).
      rewrite (proj2 IH); [reflexivity |].
      intros x Hx. apply Hall. now right.
Qed.

Lemma class_mask_zero (p : byte -> bool) (bytes : list byte) :
  class_mask p bytes = 0 <-> (forall c, In c bytes -> p c = false).
Proof.
  unfold class_mask. rewrite mask_of_lanes_zero. split.
  - intros Hall c Hc. apply Hall. now apply in_map.
  - intros Hall b Hb. apply in_map_iff in Hb.
    destruct Hb as [c [<- Hc]]. now apply Hall.
Qed.

Lemma class_mask_testbit (p : byte -> bool) (bytes : list byte) (k : Z)
    (c : byte) :
  read bytes k = Some c -> Z.testbit (class_mask p bytes) k = p c.
Proof.
  intros Hread. pose proof (read_bounds _ _ _ Hread) as Hk.
  unfold read in Hread. destruct (k <? 0); [discriminate |].
  unfold class_mask. rewrite <- (Z2Nat.id k) by lia.
  rewrite mask_of_lanes_testbit.
  apply nth_error_nth. rewrite nth_error_map, Hread. reflexivity.
Qed.

Lemma class_mask_range (p : byte -> bool) (bytes : list byte) :
  List.length bytes = 64%nat -> 0 <= class_mask p bytes < 2 ^ 64.
Proof.
  intros Hlen. unfold class_mask. split; [apply mask_of_lanes_nonneg |].
  pose proof (mask_of_lanes_bound (map p bytes)) as Hb.
  rewrite length_map, Hlen in Hb. exact Hb.
Qed.

(** ** Slices of the buffer *)

Lemma read_slice (obj : list byte) (off len k : Z) :
  0 <= off -> 0 <= k < len ->
  read (slice obj off len) k = read obj (off + k).
Proof.
  intros Hoff Hk. unfold read, slice.
  replace (k <? 0) with false by (symmetry; apply Z.ltb_ge; lia).
  replace (off + k <? 0) with false by (symmetry; apply Z.ltb_ge; lia).
  rewrite nth_error_firstn, nth_error_skipn.
  replace (Z.to_nat k <? Z.to_nat len)%nat with true
    by (symmetry; apply Nat.ltb_lt; lia).
  f_equal. lia.
Qed.

Lemma slice_length_nat (obj : list byte) (off len : Z) :
  0 <= off -> 0 <= len -> off + len <= Z.of_nat (List.length obj) ->
  List.length (slice obj off len) = Z.to_nat len.
Proof.
  intros Hoff Hlen Hfit.
  pose proof (slice_length obj off len Hoff Hlen Hfit). lia.
Qed.

Lemma in_slice_read (obj : list byte) (off len : Z) (c : byte) :
  0 <= off -> 0 <= len ->
  In c (slice obj off len) ->
  exists k, 0 <= k < len /\ read obj (off + k) = Some c.
Proof.
  intros Hoff Hlen Hin. apply In_nth_error in Hin. destruct Hin as [n Hn].
  assert (Hlt : (n < List.length (slice obj off len))%nat)
    by (apply nth_error_Some; congruence).
  assert (Hle : (List.length (slice obj off len) <= Z.to_nat len)%nat)
    by (unfold slice; rewrite length_firstn; lia).
  exists (Z.of_nat n). split; [lia |].
  rewrite <- (read_slice obj off len) by lia. unfold read.
  replace (Z.of_nat n <? 0) with false by (symmetry; apply Z.ltb_ge; lia).
  now rewrite Nat2Z.id.
Qed.

Lemma read_in_slice (obj : list byte) (off len k : Z) (c : byte) :
  0 <= off -> 0 <= k < len -> read obj (off + k) = Some c ->
  In c (slice obj off len).
Proof.
  intros Hoff Hk Hread. rewrite <- (read_slice obj off len k) in Hread by lia.
  unfold read in Hread. destruct (k <? 0); [discriminate |].
  eapply nth_error_In; eassumption.
Qed.

(** ** One block *)

Lemma load_si512_spec (buf : list byte) (i : Z) (d : list Z) :
  _mm512_load_si512 buf i = Some d ->
  0 <= i /\ i mod 64 = 0 /\ i + 64 <= Z.of_nat (List.length buf) /\
  d = map u8_of_char (slice buf i 64).
Proof.
  unfold _mm512_load_si512.
  destruct (0 <=? i) eqn:H0; [| discriminate].
  destruct (i mod 64 =? 0) eqn:H1; [| discriminate].
  destruct (i + 64 <=? Z.of_nat (List.length buf)) eqn:H2; [| discriminate].
  cbn [andb]. intros [= <-].
  apply Z.leb_le in H0, H2. apply Z.eqb_eq in H1. repeat split; assumption.
Qed.

Lemma load_si512_defined (buf : list byte) (i : Z) :
  0 <= i -> i mod 64 = 0 -> i + 64 <= Z.of_nat (List.length buf) ->
  _mm512_load_si512 buf i = Some (map u8_of_char (slice buf i 64)).
Proof.
  intros H0 H1 H2. unfold _mm512_load_si512.
  rewrite (proj2 (Z.leb_le _ _) H0), (proj2 (Z.eqb_eq _ _) H1).
  now rewrite (proj2 (Z.leb_le _ _) H2).
Qed.

Lemma cmpeq_class (bytes : list byte) (v : Z) (p : byte -> bool) :
  List.length bytes = 64%nat ->
  (forall c, (u8_of_char c =? wrap8 v) = p c) ->
  _mm512_cmpeq_epi8_mask (map u8_of_char bytes) (_mm512_set1_epi8 v)
  = class_mask p bytes.
Proof.
  intros Hlen Hp. unfold _mm512_cmpeq_epi8_mask, _mm512_set1_epi8.
  rewrite zip_with_repeat_r by (now rewrite length_map).
  rewrite map_map. unfold class_mask. f_equal. apply map_ext. exact Hp.
Qed.

Lemma alpha_lane (c : byte) :
  (wrap8 (Z.lor (u8_of_char c) (wrap8 0x20) - wrap8 97) <? wrap8 26)
  = is_alpha c.
Proof. destruct c; reflexivity. Qed.

Lemma cmplt_alpha_class (bytes : list byte) :
  List.length bytes = 64%nat ->
  _mm512_cmplt_epu8_mask
    (_mm512_sub_epi8
       (_mm512_or_si512 (map u8_of_char bytes) (_mm512_set1_epi8 0x20))
       (_mm512_set1_epi8 97))
    (_mm512_set1_epi8 26)
  = class_mask is_alpha bytes.
Proof.
  intros Hlen.
  unfold _mm512_cmplt_epu8_mask, _mm512_sub_epi8, _mm512_or_si512,
    _mm512_set1_epi8.
  rewrite (zip_with_repeat_r Z.lor) by (now rewrite length_map).
  rewrite (zip_with_repeat_r (fun x y => wrap8 (x - y)))
    by (now rewrite !length_map).
  rewrite (zip_with_repeat_r Z.ltb) by (now rewrite !length_map).
  rewrite !map_map. unfold class_mask. f_equal. apply map_ext.
  exact alpha_lane.
Qed.

Lemma scan_block_spec (buf : list byte) (i : Z) (t : http_tok_t) :
  scan_block buf i = Some t ->
  0 <= i /\ i mod 64 = 0 /\ i + 128 <= Z.of_nat (List.length buf) /\
  t = block_masks (slice buf i 64) (slice buf (i + 64) 64).
Proof.
  unfold scan_block.
  destruct (_mm512_load_si512 buf i) as [d0 |] eqn:Hd0; [| discriminate].
  destruct (_mm512_load_si512 buf (i + 64)) as [d1 |] eqn:Hd1;
    [| discriminate].
  cbn [bind]. intros [= <-].
  apply load_si512_spec in Hd0, Hd1.
  destruct Hd0 as [H0 [Hal [Hfit0 ->]]]. destruct Hd1 as [_ [_ [Hfit1 ->]]].
  assert (Hlen0 : List.length (slice buf i 64) = 64%nat)
    by (rewrite slice_length_nat by lia; reflexivity).
  assert (Hlen1 : List.length (slice buf (i + 64) 64) = 64%nat)
    by (rewrite slice_length_nat by lia; reflexivity).
  repeat split; try lia. unfold block_masks.
  rewrite !cmplt_alpha_class by assumption.
  rewrite !(cmpeq_class _ 0x20 h11_is_sp) by (assumption || reflexivity).
  rewrite !(cmpeq_class _ 0x0D h11_is_cr) by (assumption || reflexivity).
  rewrite !(cmpeq_class _ 0x0A h11_is_lf) by (assumption || reflexivity).
  rewrite !(cmpeq_class _ 0x3A is_colon) by (assumption || reflexivity).
  reflexivity.
Qed.

Lemma scan_block_defined (buf : list byte) (i : Z) :
  0 <= i -> i mod 64 = 0 -> i + 128 <= Z.of_nat (List.length buf) ->
  exists t, scan_block buf i = Some t.
Proof.
  intros H0 Hal Hfit. unfold scan_block.
  rewrite (load_si512_defined buf i) by lia.
  rewrite (load_si512_defined buf (i + 64))
    by (try lia; Z.div_mod_to_equations; lia).
  cbn [bind]. eexists. reflexivity.
Qed.

Lemma tok_any_zero (b0 b1 : list byte) :
  tok_any (block_masks b0 b1) = 0 <->
  (forall c, In c b0 \/ In c b1 -> scan_class c = false).
Proof.
  unfold tok_any, block_masks. cbn [tok_sp tok_cr tok_lf tok_col tok_alpha
                                    fst snd].
  rewrite !Z.lor_eq_0_iff, !class_mask_zero. unfold scan_class. split.
  - intros [[[[[Hs0 Hc0] Hl0] Hk0] Ha0] [[[[Hs1 Hc1] Hl1] Hk1] Ha1]] c [Hc | Hc].
    + now rewrite Hs0, Hc0, Hl0, Hk0, Ha0.
    + now rewrite Hs1, Hc1, Hl1, Hk1, Ha1.
  - intros Hall.
    repeat split; intros c Hc;
      (assert (Hcls : h11_is_sp c || h11_is_cr c || h11_is_lf c
                      || is_colon c || is_alpha c = false)
         by (apply Hall; (now left) || (now right)));
      rewrite !orb_false_iff in Hcls; tauto.
Qed.

Lemma tok_any_zero_masks (b0 b1 : list byte) :
  tok_any (block_masks b0 b1) = 0 -> block_masks b0 b1 = tok_zero.
Proof.
  unfold tok_any, block_masks, tok_zero.
  cbn [tok_sp tok_cr tok_lf tok_col tok_alpha fst snd].
  rewrite !Z.lor_eq_0_iff.
  intros [[[[[-> ->] ->] ->] ->] [[[[-> ->] ->] ->] ->]]. reflexivity.
Qed.

Lemma class_somewhere (p : byte -> bool) (l : list byte) :
  (forall c, In c l -> p c = false) \/ (exists c, In c l /\ p c = true).
Proof.
  induction l as [| x l [Hnone | [c [Hc Hp]]]].
  - left. intros c [].
  - destruct (p x) eqn:Hx.
    + right. exists x. split; [now left | exact Hx].
    + left. intros c [<- | Hc]; [exact Hx | now apply Hnone].
  - right. exists c. split; [now right | exact Hp].
Qed.

Lemma block_hit (buf : list byte) (i : Z) :
  0 <= i ->
  tok_any (block_masks (slice buf i 64) (slice buf (i + 64) 64)) <> 0 ->
  exists k c, 0 <= k < 128 /\ read buf (i + k) = Some c /\
              scan_class c = true.
Proof.
  intros Hi Hany.
  destruct (class_somewhere scan_class (slice buf i 64))
    as [Hnone0 | [c [Hc Hp]]].
  - destruct (class_somewhere scan_class (slice buf (i + 64) 64))
      as [Hnone1 | [c [Hc Hp]]].
    + exfalso. apply Hany. apply tok_any_zero. intros c [Hc | Hc]; auto.
    + apply in_slice_read in Hc; [| lia | lia].
      destruct Hc as [k [Hk Hread]]. exists (64 + k), c.
      split; [lia |]. split; [| exact Hp].
      now replace (i + (64 + k)) with (i + 64 + k) by lia.
  - apply in_slice_read in Hc; [| lia | lia].
    destruct Hc as [k [Hk Hread]]. exists k, c.
    split; [lia |]. split; [exact Hread | exact Hp].
Qed.

Lemma block_miss (buf : list byte) (i : Z) :
  0 <= i ->
  tok_any (block_masks (slice buf i 64) (slice buf (i + 64) 64)) = 0 ->
  forall j c, i <= j < i + 128 -> read buf j = Some c -> scan_class c = false.
Proof.
  intros Hi Hany j c Hj Hread.
  apply (proj1 (tok_any_zero _ _) Hany).
  destruct (Z_lt_dec j (i + 64)) as [Hlow | Hhigh].
  - left. apply (read_in_slice buf i 64 (j - i)); [lia | lia |].
    now replace (i + (j - i)) with j by lia.
  - right. apply (read_in_slice buf (i + 64) 64 (j - i - 64)); [lia | lia |].
    now replace (i + 64 + (j - i - 64)) with j by lia.
Qed.

(** ** The loop *)

Lemma scan_loop_sound (buf : list byte) (len pos : Z) :
  Z.of_nat (List.length buf) < 2 ^ 64 ->
  forall (fuel : nat) (i : Z) (t : http_tok_t) (r : Z) (t' : http_tok_t)
         (p : Z),
    0 <= i -> i mod 128 = 0 -> nothing_below buf i ->
    scan_loop buf len fuel i t pos = Some (r, t', p) ->
    (r = 1 /\ i <= p < len /\ p mod 128 = 0 /\
     p + 128 <= Z.of_nat (List.length buf) /\
     t' = block_masks (slice buf p 64) (slice buf (p + 64) 64) /\
     tok_any t' <> 0 /\ nothing_below buf p) \/
    (r = 0 /\ p = pos /\ nothing_below buf len /\
     ((len <= i /\ t' = t) \/ (i < len /\ t' = tok_zero))).
Proof.
  intros Hsize.
  induction fuel as [| fuel IH]; intros i t r t' p Hi Hal Hbelow Hloop;
    cbn [scan_loop] in Hloop;
    destruct (i <? len) eqn:Hcmp;
    [apply Z.ltb_lt in Hcmp | apply Z.ltb_ge in Hcmp
    |apply Z.ltb_lt in Hcmp | apply Z.ltb_ge in Hcmp];
    try discriminate Hloop;
    try (injection Hloop as <- <- <-; right;
         repeat split; try (left; split; [lia | reflexivity]);
         intros j c Hj; apply Hbelow; lia).
  destruct (scan_block buf i) as [tb |] eqn:Hblock; [| discriminate].
  cbn [bind] in Hloop.
  destruct (scan_block_spec _ _ _ Hblock) as [_ [_ [Hfit ->]]].
  destruct (tok_any _ =? 0) eqn:Hany; cbn [negb] in Hloop.
  - apply Z.eqb_eq in Hany.
    assert (Hbelow' : nothing_below buf (i + 128)).
    { intros j c Hj Hread. destruct (Z_lt_dec j i) as [Hlt | Hge].
      - apply (Hbelow j c); [lia | exact Hread].
      - apply (block_miss buf i Hi Hany j c); [lia | exact Hread]. }
    unfold wrap64 in Hloop. rewrite Z.mod_small in Hloop by lia.
    apply IH in Hloop;
      [| lia | clear - Hal; Z.div_mod_to_equations; lia | exact Hbelow'].
    destruct Hloop as [[Hr [Hp Hrest]] | [Hr [Hp [Hnone Ht]]]].
    + left. split; [exact Hr |]. split; [lia | exact Hrest].
    + right. split; [exact Hr |]. split; [exact Hp |].
      split; [exact Hnone |]. right. split; [exact Hcmp |].
      destruct Ht as [[_ ->] | [_ ->]];
        [now apply tok_any_zero_masks | reflexivity].
  - apply Z.eqb_neq in Hany. injection Hloop as <- <- <-. left.
    repeat split; try lia; try assumption.
Qed.

Lemma scan_loop_defined (buf : list byte) (len pos : Z) :
  len mod 128 = 0 -> len <= Z.of_nat (List.length buf) ->
  Z.of_nat (List.length buf) < 2 ^ 64 ->
  forall (fuel : nat) (i : Z) (t : http_tok_t),
    0 <= i -> i mod 128 = 0 -> len - i <= 128 * Z.of_nat fuel ->
    exists res, scan_loop buf len fuel i t pos = Some res.
Proof.
  intros Hlen Hfit Hsize.
  induction fuel as [| fuel IH]; intros i t Hi Hal Hfuel;
    cbn [scan_loop]; destruct (i <? len) eqn:Hcmp;
    try (eexists; reflexivity);
    apply Z.ltb_lt in Hcmp; [lia |].
  assert (Hnext : i + 128 <= len)
    by (clear - Hal Hlen Hcmp; Z.div_mod_to_equations; lia).
  destruct (scan_block_defined buf i) as [tb Hblock];
    [lia | clear - Hal; Z.div_mod_to_equations; lia | lia |].
  rewrite Hblock. cbn [bind].
  destruct (negb (tok_any tb =? 0)); [eexists; reflexivity |].
  unfold wrap64. rewrite Z.mod_small by lia.
  apply IH; [lia | clear - Hal; Z.div_mod_to_equations; lia | lia].
Qed.

(** X13: when the two loads of a block succeed, the masks stored in *t
    describe the 128 bytes at buf + i lane by lane: bit k of each pair of
    masks tells whether byte i + k is a space, a CR, an LF, a colon or an
    ASCII letter (the OR-0x20, subtract-'a', compare-below-26 trick selects
    exactly the letters), and every mask fits 64 bits. *)
Theorem scan_block_masks (buf : list byte) (i : Z) (t : http_tok_t) :
  scan_block buf i = Some t ->
  (forall k, 0 <= k < 128 ->
     exists c,
       read buf (i + k) = Some c /\
       tok_bit (tok_sp t) k = h11_is_sp c /\
       tok_bit (tok_cr t) k = h11_is_cr c /\
       tok_bit (tok_lf t) k = h11_is_lf c /\
       tok_bit (tok_col t) k = is_colon c /\
       tok_bit (tok_alpha t) k = is_alpha c) /\
  mask64 (tok_sp t) /\ mask64 (tok_cr t) /\ mask64 (tok_lf t) /\
  mask64 (tok_col t) /\ mask64 (tok_alpha t).
Proof.
  intros Hblock.
  destruct (scan_block_spec _ _ _ Hblock) as [Hi [_ [Hfit ->]]].
  assert (Hlen0 : List.length (slice buf i 64) = 64%nat)
    by (rewrite slice_length_nat by lia; reflexivity).
  assert (Hlen1 : List.length (slice buf (i + 64) 64) = 64%nat)
    by (rewrite slice_length_nat by lia; reflexivity).
  split.
  - intros k Hk. destruct (read_in_bounds buf (i + k)) as [c Hc]; [lia |].
    exists c. split; [exact Hc |].
    unfold tok_bit, block_masks.
    cbn [tok_sp tok_cr tok_lf tok_col tok_alpha fst snd].
    destruct (k <? 64) eqn:Hhalf.
    + apply Z.ltb_lt in Hhalf.
      assert (Hr : read (slice buf i 64) k = Some c)
        by (rewrite read_slice by lia; exact Hc).
      repeat split; now apply class_mask_testbit.
    + apply Z.ltb_ge in Hhalf.
      assert (Hr : read (slice buf (i + 64) 64) (k - 64) = Some c).
      { rewrite read_slice by lia.
        now replace (i + 64 + (k - 64)) with (i + k) by lia. }
      repeat split; now apply class_mask_testbit.
  - unfold mask64, block_masks.
    cbn [tok_sp tok_cr tok_lf tok_col tok_alpha fst snd].
    repeat split; apply class_mask_range; assumption.
Qed.

Lemma scan_block_masks_witness :
  exists c,
    read scan_sample (128 + 3) = Some c /\
    tok_bit (40, 0) 3 = h11_is_sp c /\
    tok_bit (16384, 0) 3 = h11_is_cr c /\
    tok_bit (32768, 0) 3 = h11_is_lf c /\
    tok_bit (0, 0) 3 = is_colon c /\
    tok_bit (967, 0) 3 = is_alpha c.
Proof.
  apply (proj1 (scan_block_masks scan_sample 128
                  (mk_tok (40, 0) (16384, 0) (32768, 0) (0, 0) (967, 0))
                  eq_refl) 3).
  lia.
Defined.

(** X14: when http_scan_ws_loop returns 1, *pos is a multiple of 128 below
    len, *t holds the masks of the block at *pos, some byte of that block
    is a space, CR, LF, colon or ASCII letter, and no byte before the block
    is. *)
Theorem http_scan_ws_loop_found (buf : list byte) (len : Z)
    (t : http_tok_t) (pos : Z) (t' : http_tok_t) (p : Z) :
  Z.of_nat (List.length buf) < 2 ^ 64 ->
  http_scan_ws_loop buf len t pos = Some (1, t', p) ->
  0 <= p < len /\ p mod 128 = 0 /\
  scan_block buf p = Some t' /\
  (exists k c, 0 <= k < 128 /\ read buf (p + k) = Some c /\
               scan_class c = true) /\
  nothing_below buf p.
Proof.
  intros Hsize Hscan. unfold http_scan_ws_loop in Hscan.
  apply (scan_loop_sound buf len pos Hsize) in Hscan;
    [| lia | reflexivity | intros j c Hj; lia].
  destruct Hscan as [[_ [Hp [Hal [Hfit [Ht [Hany Hbelow]]]]]] | [Hr _]];
    [| discriminate Hr].
  split; [lia |]. split; [exact Hal |].
  destruct (scan_block_defined buf p) as [tb Hblock];
    [lia | clear - Hal; Z.div_mod_to_equations; lia | lia |].
  destruct (scan_block_spec _ _ _ Hblock) as [_ [_ [_ Htb]]].
  split; [rewrite Hblock, Htb, Ht; reflexivity |].
  split; [| exact Hbelow].
  subst t'. apply block_hit; [lia | exact Hany].
Qed.

Lemma http_scan_ws_loop_found_witness :
  0 <= 128 < 256 /\ 128 mod 128 = 0 /\
  scan_block scan_sample 128
  = Some (mk_tok (40, 0) (16384, 0) (32768, 0) (0, 0) (967, 0)) /\
  (exists k c, 0 <= k < 128 /\ read scan_sample (128 + k) = Some c /\
               scan_class c = true) /\
  nothing_below scan_sample 128.
Proof.
  apply (http_scan_ws_loop_found scan_sample 256 tok_zero 7).
  - vm_compute. reflexivity.
  - vm_compute. reflexivity.
Defined.

(** X15: http_scan_ws_loop returns only 0 or 1; when it returns 0, *pos
    is left as it was, no byte of the first len bytes is a space, CR, LF,
    colon or ASCII letter, and *t is untouched when len is 0 and holds ten
    zero masks otherwise. *)
Theorem http_scan_ws_loop_not_found (buf : list byte) (len : Z)
    (t : http_tok_t) (pos : Z) (r : Z) (t' : http_tok_t) (p : Z) :
  Z.of_nat (List.length buf) < 2 ^ 64 ->
  http_scan_ws_loop buf len t pos = Some (r, t', p) ->
  (r = 0 \/ r = 1) /\
  (r = 0 ->
   p = pos /\ nothing_below buf len /\
   ((len <= 0 /\ t' = t) \/ (0 < len /\ t' = tok_zero))).
Proof.
  intros Hsize Hscan. unfold http_scan_ws_loop in Hscan.
  apply (scan_loop_sound buf len pos Hsize) in Hscan;
    [| lia | reflexivity | intros j c Hj; lia].
  destruct Hscan as [[Hr _] | [Hr [Hp [Hnone Ht]]]].
  - split; [now right | intros H0; lia].
  - split; [now left | intros _]. repeat split; assumption.
Qed.

Lemma http_scan_ws_loop_not_found_witness :
  7 = 7 /\ nothing_below (repeat x30 256) 256 /\
  ((256 <= 0 /\ tok_zero = mk_tok (1, 1) (1, 1) (1, 1) (1, 1) (1, 1)) \/
   (0 < 256 /\ tok_zero = tok_zero)).
Proof.
  apply (http_scan_ws_loop_not_found (repeat x30 256) 256
           (mk_tok (1, 1) (1, 1) (1, 1) (1, 1) (1, 1)) 7 0 tok_zero 7).
  - vm_compute. reflexivity.
  - vm_compute. reflexivity.
  - reflexivity.
Defined.

(** X16: on a buffer of at least len bytes, with len a multiple of 128,
    every load of http_scan_ws_loop is aligned and inside the buffer and
    the loop ends: the function returns.  On a buffer shorter than 128
    bytes with len above 0 the first pair of loads already reads outside
    the buffer. *)
Theorem http_scan_ws_loop_defined :
  (forall (buf : list byte) (len : Z) (t : http_tok_t) (pos : Z),
     0 <= len -> len mod 128 = 0 ->
     len <= Z.of_nat (List.length buf) ->
     Z.of_nat (List.length buf) < 2 ^ 64 ->
     exists res, http_scan_ws_loop buf len t pos = Some res) /\
  (forall (buf : list byte) (len : Z) (t : http_tok_t) (pos : Z),
     0 < len -> Z.of_nat (List.length buf) < 128 ->
     http_scan_ws_loop buf len t pos = None).
Proof.
  split.
  - intros buf len t pos Hlen Hal Hfit Hsize. unfold http_scan_ws_loop.
    apply scan_loop_defined; try assumption; try reflexivity; lia.
  - intros buf len t pos Hlen Hshort. unfold http_scan_ws_loop.
    destruct (Z.to_nat len) as [| fuel] eqn:Hfuel; [lia |].
    cbn [scan_loop].
    replace (0 <? len) with true by (symmetry; apply Z.ltb_lt; lia).
    destruct (scan_block buf 0) as [tb |] eqn:Hblock; [| reflexivity].
    apply scan_block_spec in Hblock. lia.
Qed.

Lemma http_scan_ws_loop_defined_witness :
  (exists res, http_scan_ws_loop scan_sample 256 tok_zero 0 = Some res) /\
  http_scan_ws_loop (repeat x30 100) 100 tok_zero 0 = None.
Proof.
  destruct http_scan_ws_loop_defined as [Hdef Hshort].
  split.
  - apply Hdef; [lia | reflexivity | vm_compute; discriminate | reflexivity].
  - apply Hshort; [lia | reflexivity].
Defined.

(** ** The padding computed by main *)

Lemma main_padded_div (flen : Z) :
  main_padded flen = 128 * (wrap64 (flen + 127) / 128).
Proof.
  unfold main_padded, wrap64.
  rewrite <- (Z.land_ones (Z.lnot 127) 64) by lia.
  rewrite (Z.land_comm (Z.lnot 127)), Z.land_assoc.
  rewrite (Z.land_ones _ 64) by lia. rewrite Z.mod_mod by lia.
  change 127 with (Z.ones 7) at 2.
  rewrite <- Z.ldiff_land, Z.ldiff_ones_r by lia.
  rewrite Z.shiftl_mul_pow2, Z.shiftr_div_pow2 by lia.
  change (2 ^ 7) with 128. apply Z.mul_comm.
Qed.

(** X17: for a file length flen below 2^64, padded = (flen + 127) & ~127 is
    a multiple of 128 below 2^64; when flen is at most 2^64 - 128 it is the
    least multiple of 128 that is at least flen (so flen <= padded <
    flen + 128, with equality exactly for multiples of 128); for a larger
    flen the addition wraps and padded is 0. *)
Theorem main_padded_spec (flen : Z) :
  0 <= flen < 2 ^ 64 ->
  main_padded flen mod 128 = 0 /\
  0 <= main_padded flen < 2 ^ 64 /\
  (flen <= 2 ^ 64 - 128 ->
   flen <= main_padded flen < flen + 128 /\
   (main_padded flen = flen <-> flen mod 128 = 0)) /\
  (2 ^ 64 - 128 < flen -> main_padded flen = 0).
Proof.
  intros Hflen. rewrite main_padded_div. unfold wrap64.
  repeat split; intros; Z.div_mod_to_equations; lia.
Qed.

Lemma main_padded_spec_witness :
  main_padded 129 mod 128 = 0 /\
  0 <= main_padded 129 < 2 ^ 64 /\
  (129 <= 2 ^ 64 - 128 ->
   129 <= main_padded 129 < 129 + 128 /\
   (main_padded 129 = 129 <-> 129 mod 128 = 0)) /\
  (2 ^ 64 - 128 < 129 -> main_padded 129 = 0).
Proof. apply main_padded_spec. lia. Defined.

(** ** The scan as main runs it *)

Lemma main_buffer_length (content : list byte) :
  Z.of_nat (List.length content) <= 2 ^ 64 - 128 ->
  Z.of_nat (List.length (main_buffer content))
  = main_padded (Z.of_nat (List.length content)).
Proof.
  intros Hlen. unfold main_buffer.
  rewrite length_app, repeat_length.
  pose proof (main_padded_spec (Z.of_nat (List.length content))
                ltac:(lia)) as [_ [_ [Hpad _]]].
  specialize (Hpad Hlen). lia.
Qed.

Lemma main_buffer_padding (content : list byte) (j : Z) (c : byte) :
  Z.of_nat (List.length content) <= j ->
  read (main_buffer content) j = Some c -> c = x00.
Proof.
  intros Hj Hread. pose proof (read_bounds _ _ _ Hread) as Hb.
  unfold read in Hread. destruct (j <? 0); [discriminate |].
  unfold main_buffer in Hread.
  rewrite nth_error_app2 in Hread by lia.
  apply nth_error_In in Hread. now apply repeat_spec in Hread.
Qed.

(** X18: main's use of the scanner is defined and never reports the
    padding: for a file of at most 2^64 - 128 bytes, scanning the padded,
    zero-filled buffer with len = padded returns 0 or 1, and when it
    returns 1 the block at *pos holds a byte of the file itself that is a
    space, CR, LF, colon or letter, so that *pos is below the file
    length. *)
Theorem main_scan_defined (content : list byte) (t : http_tok_t) (pos : Z) :
  Z.of_nat (List.length content) <= 2 ^ 64 - 128 ->
  exists r t' p,
    http_scan_ws_loop (main_buffer content)
      (main_padded (Z.of_nat (List.length content))) t pos
    = Some (r, t', p) /\
    (r = 0 \/ r = 1) /\
    (r = 1 ->
     p < Z.of_nat (List.length content) /\
     exists k c, 0 <= k < 128 /\
                 p + k < Z.of_nat (List.length content) /\
                 read content (p + k) = Some c /\ scan_class c = true).
Proof.
  intros Hlen.
  set (flen := Z.of_nat (List.length content)) in *.
  pose proof (main_padded_spec flen ltac:(lia)) as [Hal [Hrange _]].
  pose proof (main_buffer_length content Hlen) as Hsize. fold flen in Hsize.
  assert (Hdef : exists res,
             scan_loop (main_buffer content) (main_padded flen)
               (Z.to_nat (main_padded flen)) 0 t pos = Some res)
    by (apply scan_loop_defined; try assumption; try reflexivity; lia).
  destruct Hdef as [[[r t'] p] Hres].
  exists r, t', p. split; [exact Hres |].
  assert (Hbuf : Z.of_nat (List.length (main_buffer content)) < 2 ^ 64)
    by lia.
  apply (scan_loop_sound _ _ _ Hbuf) in Hres;
    [| lia | reflexivity | intros j c Hj; lia].
  destruct Hres as [[Hr [Hp [Hpal [Hfit [Ht [Hany _]]]]]] | [Hr _]].
  - split; [now right | intros _]. subst t'.
    destruct (block_hit _ p ltac:(lia) Hany) as [k [c [Hk [Hread Hcls]]]].
    assert (Hin : p + k < flen).
    { destruct (Z_lt_dec (p + k) flen) as [Hlt | Hge]; [exact Hlt |].
      rewrite (main_buffer_padding content (p + k) c) in Hcls
        by (assumption || (fold flen; lia)).
      discriminate Hcls. }
    split; [lia |]. exists k, c. repeat split; try lia; try assumption.
    unfold read in *. destruct (p + k <? 0); [discriminate |].
    unfold main_buffer in Hread.
    rewrite nth_error_app1 in Hread by (fold flen in Hin |- *; lia).
    exact Hread.
  - split; [now left | intros H1; lia].
Qed.

Lemma main_scan_defined_witness :
  exists r t' p,
    http_scan_ws_loop (main_buffer (chars "0123 ok"))
      (main_padded (Z.of_nat (List.length (chars "0123 ok")))) tok_zero 0
    = Some (r, t', p) /\
    (r = 0 \/ r = 1) /\
    (r = 1 ->
     p < Z.of_nat (List.length (chars "0123 ok")) /\
     exists k c, 0 <= k < 128 /\
                 p + k < Z.of_nat (List.length (chars "0123 ok")) /\
                 read (chars "0123 ok") (p + k) = Some c /\
                 scan_class c = true).
Proof.
  apply (main_scan_defined (chars "0123 ok") tok_zero 0).
  vm_compute. discriminate.
Defined.
